(** * Video trimmer: the session-scoped media processing pipeline

    A shallow embedding of the request handlers of the video trimmer
    server (api/index.js, its stream-copy revision, and server/index.js):
    the upload filter, the byte-range file server and the batch
    processing loop, together with the parts of the JavaScript and Node
    run-time they rest on (strings, [parseInt], [path.extname],
    [path.join], [fs.createReadStream]). *)

From Stdlib Require Import ZArith NArith List Bool Ascii String Lia.
From Stdlib Require Import Floats QArith Lqa.
Import ListNotations.

Close Scope Q_scope.

Set Implicit Arguments.

(* ===================================================================== *)
(** * Part I: definitions                                                 *)
(* ===================================================================== *)

(** ** JavaScript strings

    A JavaScript string is a sequence of UTF-16 code units. *)

Module Js.

Definition jsstring := list N.

Definition lit (s : string) : jsstring :=
  List.map N_of_ascii (list_ascii_of_string s).

Definition jsstring_eq_dec : forall a b : jsstring, {a = b} + {a <> b} :=
  list_eq_dec N.eq_dec.

Definition eqb_str (a b : jsstring) : bool :=
  if jsstring_eq_dec a b then true else false.

(** [if (s)]: a string is truthy exactly when it is not empty. *)
Definition truthy (s : jsstring) : bool :=
  match s with [] => false | _ :: _ => true end.

(** [a || b] on strings. *)
Definition orElse (a b : jsstring) : jsstring :=
  if truthy a then a else b.

(** WhiteSpace and LineTerminator code units of ECMAScript, the set that
    [String.prototype.trim] and the numeric parsers strip. *)
Definition isWhiteSpace (c : N) : bool :=
  ((9 <=? c) && (c <=? 13) || (c =? 32) || (c =? 160) || (c =? 5760)
   || (8192 <=? c) && (c <=? 8202)
   || (c =? 8232) || (c =? 8233) || (c =? 8239) || (c =? 8287)
   || (c =? 12288) || (c =? 65279))%N.

Fixpoint dropWhile (p : N -> bool) (s : jsstring) : jsstring :=
  match s with
  | [] => []
  | c :: r => if p c then dropWhile p r else s
  end.

Fixpoint takeWhile (p : N -> bool) (s : jsstring) : jsstring :=
  match s with
  | [] => []
  | c :: r => if p c then c :: takeWhile p r else []
  end.

Definition trimStart (s : jsstring) : jsstring := dropWhile isWhiteSpace s.
Definition trimEnd (s : jsstring) : jsstring :=
  rev (dropWhile isWhiteSpace (rev s)).

(** [s.trim()] *)
Definition trim (s : jsstring) : jsstring := trimEnd (trimStart s).

(** [s.startsWith(p)] *)
Fixpoint startsWith (p s : jsstring) : bool :=
  match p, s with
  | [], _ => true
  | _ :: _, [] => false
  | a :: p', b :: s' => (a =? b)%N && startsWith p' s'
  end.

(** [s.includes(w)]; also the result of [/w/.test(s)] for a pattern [w]
    made of literal characters only. *)
Fixpoint includes (w s : jsstring) : bool :=
  startsWith w s ||
  match s with
  | [] => false
  | _ :: r => includes w r
  end.

(** [s.replace(/pat/, rep)] for a literal pattern without the global
    flag: the first occurrence only. *)
Fixpoint replaceFirst (pat rep s : jsstring) : jsstring :=
  if startsWith pat s then rep ++ skipn (List.length pat) s
  else match s with
       | [] => []
       | c :: r => c :: replaceFirst pat rep r
       end.

(** [s.split(sep)] for a separator of one code unit. *)
Fixpoint split (sep : N) (s : jsstring) : list jsstring :=
  match s with
  | [] => [[]]
  | c :: r =>
      if (c =? sep)%N then [] :: split sep r
      else match split sep r with
           | [] => [[c]]
           | x :: xs => (c :: x) :: xs
           end
  end.

Definition isDigit (c : N) : bool := ((48 <=? c) && (c <=? 57))%N.

Definition digitsValue (ds : jsstring) : N :=
  fold_left (fun acc d => (10 * acc + (d - 48))%N) ds 0%N.

(** A JavaScript number whose value is an integer, an infinity or NaN;
    the handlers use such numbers for byte offsets and sizes.  [Num z]
    is the double of value [z]. *)
Inductive jsnum :=
| Num (z : Z)
| PosInfinity
| NegInfinity
| NaN.

Definition negate (x : jsnum) : jsnum :=
  match x with
  | Num z => Num (- z)
  | PosInfinity => NegInfinity
  | NegInfinity => PosInfinity
  | NaN => NaN
  end.

(** The double nearest to the integer [m >= 0], ties going to the even
    significand: an integer of at most 53 bits is a double; a longer
    one keeps its 53 leading bits, rounded; from 2^1024 - 2^970 on the
    result is Infinity. *)
Definition roundToDouble (m : Z) : jsnum :=
  let bits := (Z.log2 m + 1)%Z in
  if (bits <=? 53)%Z then Num m
  else
    let shift := (bits - 53)%Z in
    let q := Z.shiftr m shift in
    let r := (m - Z.shiftl q shift)%Z in
    let half := Z.shiftl 1 (shift - 1) in
    let q' :=
      if (half <? r)%Z || ((r =? half)%Z && Z.odd q) then (q + 1)%Z else q in
    let v := Z.shiftl q' shift in
    if (2 ^ 1024 <=? v)%Z then PosInfinity else Num v.

(** The Number value for a mathematical integer. *)
Definition toNumber (z : Z) : jsnum :=
  if (z <? 0)%Z then negate (roundToDouble (- z)) else roundToDouble z.

(** An optional sign in front of a numeral: whether it is [-], and what
    follows it. *)
Definition stripSign (s : jsstring) : bool * jsstring :=
  match s with
  | 45%N :: r => (true, r)
  | 43%N :: r => (false, r)
  | _ => (false, s)
  end.

(** [parseInt(s, 10)]: leading white space, an optional sign, then the
    longest run of decimal digits; NaN when there is no digit, else the
    Number value for the integer the digits denote. *)
Definition parseInt (s : jsstring) : jsnum :=
  let '(neg, s2) := stripSign (trimStart s) in
  match takeWhile isDigit s2 with
  | [] => NaN
  | ds => let v := Z.of_N (digitsValue ds) in
          toNumber (if neg then (- v)%Z else v)
  end.

Fixpoint digitsFuel (fuel : nat) (n : N) (acc : jsstring) : jsstring :=
  match fuel with
  | O => acc
  | S f =>
      let acc' := (48 + n mod 10)%N :: acc in
      if (n <? 10)%N then acc' else digitsFuel f (n / 10)%N acc'
  end.

(** The decimal digits of a natural number, most significant first. *)
Definition dec (n : N) : jsstring := digitsFuel (S (N.to_nat (N.log2 n))) n [].

(** [`${x}`] for the numbers the handlers print: NaN, the infinities,
    and integers that are file sizes or offsets the read stream has
    accepted (at most 2^53 - 1), which print as their decimal
    numeral. *)
Definition numToString (x : jsnum) : jsstring :=
  match x with
  | NaN => lit "NaN"
  | PosInfinity => lit "Infinity"
  | NegInfinity => lit "-Infinity"
  | Num z => if (z <? 0)%Z then 45%N :: dec (Z.to_N (- z)) else dec (Z.to_N z)
  end.

End Js.

Import Js.

(** ** Node's [path] module (POSIX flavour)

    [path] belongs to the Node run-time, not to the repository; it is
    modelled here on path components, following the behaviour Node
    documents for [path.extname], [path.normalize] and [path.join]. *)

Module NodePath.

Definition isSlash (c : N) : bool := (c =? 47)%N.
Definition isDot (c : N) : bool := (c =? 46)%N.
Definition notSlash (c : N) : bool := negb (isSlash c).
Definition notDot (c : N) : bool := negb (isDot c).

(** The last component of a path, trailing separators ignored, read from
    its last character backwards. *)
Definition revBase (p : jsstring) : jsstring :=
  takeWhile notSlash (dropWhile isSlash (rev p)).

(** [path.extname(p)]: from the last dot of the last component to its
    end; empty when there is no dot, when the only dot is the first
    character of the component, or when the component is [..]. *)
Definition extname (p : jsstring) : jsstring :=
  let rb := revBase p in
  let revExt := takeWhile notDot rb in
  match dropWhile notDot rb with
  | [] => []
  | _ :: [] => []
  | _ :: revStem =>
      if truthy revExt || negb (eqb_str revStem [46%N])
      then 46%N :: rev revExt
      else []
  end.

Definition dotdot : jsstring := [46%N; 46%N].

(** The component walk of [normalizeString]: empty components and [.]
    are dropped, [..] removes the component before it, or is kept when
    the path is relative and nothing is left to remove.  [res] is the
    result so far, last component first. *)
Fixpoint resolve (allowAboveRoot : bool) (segs res : list jsstring)
  : list jsstring :=
  match segs with
  | [] => rev res
  | s :: r =>
      if negb (truthy s) || eqb_str s [46%N] then resolve allowAboveRoot r res
      else if eqb_str s dotdot then
        match res with
        | top :: res' =>
            if eqb_str top dotdot
            then resolve allowAboveRoot r
                   (if allowAboveRoot then dotdot :: res else res)
            else resolve allowAboveRoot r res'
        | [] =>
            resolve allowAboveRoot r
              (if allowAboveRoot then [dotdot] else [])
        end
      else resolve allowAboveRoot r (s :: res)
  end.

Fixpoint joinSegs (segs : list jsstring) : jsstring :=
  match segs with
  | [] => []
  | [s] => s
  | s :: r => s ++ 47%N :: joinSegs r
  end.

Definition isAbsolute (p : jsstring) : bool :=
  match p with c :: _ => isSlash c | [] => false end.

Definition endsWithSlash (p : jsstring) : bool :=
  match rev p with c :: _ => isSlash c | [] => false end.

(** [path.normalize(p)] *)
Definition normalize (p : jsstring) : jsstring :=
  if negb (truthy p) then [46%N]
  else
    let abs := isAbsolute p in
    let trailingSeparator := endsWithSlash p in
    let path := joinSegs (resolve (negb abs) (split 47 p) []) in
    if negb (truthy path) then
      if abs then [47%N]
      else if trailingSeparator then [46%N; 47%N] else [46%N]
    else
      let path := if trailingSeparator then path ++ [47%N] else path in
      if abs then 47%N :: path else path.

(** [path.join(...args)] *)
Definition join (args : list jsstring) : jsstring :=
  match filter truthy args with
  | [] => [46%N]
  | parts => normalize (joinSegs parts)
  end.

(** The components a path resolves to. *)
Definition components (p : jsstring) : list jsstring :=
  resolve (negb (isAbsolute p)) (split 47 p) [].

Fixpoint isPrefix (a b : list jsstring) : bool :=
  match a, b with
  | [], _ => true
  | _ :: _, [] => false
  | x :: a', y :: b' => eqb_str x y && isPrefix a' b'
  end.

(** [p] lies strictly inside the directory [dir]: both absolute, and
    the components of [dir] are a proper prefix of those of [p]. *)
Definition inside (dir p : jsstring) : bool :=
  isAbsolute dir && isAbsolute p
  && isPrefix (components dir) (components p)
  && (List.length (components dir) <? List.length (components p))%nat.

End NodePath.

(** ** Upload: the multer [fileFilter] *)

Module Upload.

Record File := { originalname : jsstring; mimetype : jsstring }.

Definition allowList : list jsstring :=
  [lit "mp4"; lit "mov"; lit "avi"; lit "mkv"; lit "webm"].

(** [allowedTypes.test(s)] for [allowedTypes = /mp4|mov|avi|mkv|webm/]:
    the pattern is not anchored, so it asks whether one of the five
    words occurs somewhere in [s]. *)
Definition allowedTypes_test (s : jsstring) : bool :=
  existsb (fun w => includes w s) allowList.

Inductive FilterResult :=
| Accept
| Reject (error : jsstring).

Section FileFilter.

(** [String.prototype.toLowerCase] is the host's Unicode lower-casing;
    the filter is stated for any such function. *)
Variable toLowerCase : jsstring -> jsstring.

Definition fileFilter (file : File) : FilterResult :=
  let extname :=
    allowedTypes_test (toLowerCase (NodePath.extname (originalname file))) in
  let mimetype := allowedTypes_test (mimetype file) in
  if extname && mimetype then Accept
  else Reject (lit "Only video files are allowed").

End FileFilter.

(** Lower-casing of the letters A to Z; on strings without other cased
    characters this is what [toLowerCase] computes. *)
Definition asciiLower (s : jsstring) : jsstring :=
  List.map (fun c => if ((65 <=? c) && (c <=? 90))%N then (c + 32)%N else c) s.

(** The extension of the uploaded file without its leading dot. *)
Definition extensionOf (file : File) : jsstring :=
  match NodePath.extname (originalname file) with
  | [] => []
  | _ :: e => e
  end.

End Upload.

(** ** Retrieve output file: [GET /api/output/:sessionId/:filename] *)

Module RangeServer.

Definition bytes := list Byte.byte.

(** The file system as the handler sees it: the content stored at a
    path, if any. *)
Definition FileSystem := jsstring -> option bytes.

(** [error.message]: a fixed text, or the message of one of Node's
    errors, given by its code and what it names. *)
Inductive Message :=
| Text (s : jsstring)
| ERR_OUT_OF_RANGE (name : jsstring) (received : jsnum)
| ERR_INVALID_CHAR (header : jsstring).

Inductive HeaderValue :=
| HStr (s : jsstring)
| HNum (n : jsnum).

Inductive Body :=
| FileStream (content : bytes)
| JsonError (error : Message).

Record Response := {
  status : Z;
  headers : list (jsstring * HeaderValue);
  body : Body
}.

(** [a - b] and [a + b] on these numbers: the exact result, rounded to
    a double; NaN where an operand is NaN or the infinities cancel. *)
Definition nsub (a b : jsnum) : jsnum :=
  match a, b with
  | NaN, _ | _, NaN => NaN
  | PosInfinity, PosInfinity | NegInfinity, NegInfinity => NaN
  | PosInfinity, _ | _, NegInfinity => PosInfinity
  | NegInfinity, _ | _, PosInfinity => NegInfinity
  | Num x, Num y => toNumber (x - y)
  end.
Definition nadd (a b : jsnum) : jsnum :=
  match a, b with
  | NaN, _ | _, NaN => NaN
  | PosInfinity, NegInfinity | NegInfinity, PosInfinity => NaN
  | PosInfinity, _ | _, PosInfinity => PosInfinity
  | NegInfinity, _ | _, NegInfinity => NegInfinity
  | Num x, Num y => toNumber (x + y)
  end.

Definition MAX_SAFE_INTEGER : Z := 2 ^ 53 - 1.

(** Node's [validateInteger(value, name, 0)]: the value must be an
    integer (the infinities and NaN are none) from 0 to 2^53 - 1. *)
Definition validateInteger (v : jsnum) : bool :=
  match v with
  | Num z => ((0 <=? z) && (z <=? MAX_SAFE_INTEGER))%Z
  | _ => false
  end.

(** [a > b] *)
Definition gtNum (a b : jsnum) : bool :=
  match a, b with
  | NaN, _ | _, NaN => false
  | Num x, Num y => (y <? x)%Z
  | PosInfinity, PosInfinity | NegInfinity, NegInfinity => false
  | PosInfinity, _ | _, NegInfinity => true
  | NegInfinity, _ | _, PosInfinity => false
  end.

(** [end === Infinity] *)
Definition isInfinity (v : jsnum) : bool :=
  match v with PosInfinity => true | _ => false end.

(** The bytes of the file from offset [start] to offset [end_], both
    included, as far as the file goes. *)
Definition readBytes (content : bytes) (start end_ : jsnum) : bytes :=
  match start, end_ with
  | Num a, Num b => firstn (Z.to_nat (b - a + 1)) (skipn (Z.to_nat a) content)
  | Num a, PosInfinity => skipn (Z.to_nat a) content
  | _, _ => []
  end.

(** [fs.createReadStream(path, { start, end })] piped to the response,
    as Node (version 14 and later) has it: [start] must be an integer
    from 0 to 2^53 - 1; unless [end] is Infinity, [end] must be one too
    and [start <= end]; else the call throws.  The stream then delivers
    the bytes from [start] to [end], both included, as far as the file
    goes. *)
Definition createReadStream (content : bytes) (start end_ : jsnum)
  : Message + bytes :=
  if negb (validateInteger start) then inl (ERR_OUT_OF_RANGE (lit "start") start)
  else if isInfinity end_ then inr (readBytes content start end_)
  else if negb (validateInteger end_) then inl (ERR_OUT_OF_RANGE (lit "end") end_)
  else if gtNum start end_ then inl (ERR_OUT_OF_RANGE (lit "start") start)
  else inr (readBytes content start end_).

Definition quote : N := 34%N.

(** Node's [checkInvalidHeaderChar(val)], the test of
    [/[^\t\x20-\x7e\x80-\xff]/]: whether a code unit of [val] is
    none of TAB, 0x20 to 0x7e, 0x80 to 0xff. *)
Definition headerChar (c : N) : bool :=
  ((c =? 9) || (32 <=? c) && (c <=? 126) || (128 <=? c) && (c <=? 255))%N.
Definition checkInvalidHeaderChar (val : jsstring) : bool :=
  existsb (fun c => negb (headerChar c)) val.

Section Handler.

Variable OUTPUT_DIR : jsstring.

Definition getOutput (fs : FileSystem) (sessionId filename : jsstring)
    (range : option jsstring) : Response :=
  let filePath := NodePath.join [OUTPUT_DIR; sessionId; filename] in
  match fs filePath with
  | None =>
      {| status := 404; headers := [];
         body := JsonError (Text (lit "File not found")) |}
  | Some content =>
      (* [stats.size]: the number of bytes of the file *)
      let fileSize := Num (Z.of_nat (List.length content)) in
      let fullFile :=
        let disposition :=
          lit "attachment; filename=" ++ [quote] ++ filename ++ [quote] in
        (* [res.setHeader] throws on a value with an invalid character *)
        if checkInvalidHeaderChar disposition then
          {| status := 500; headers := [];
             body := JsonError (ERR_INVALID_CHAR (lit "Content-Disposition")) |}
        else
          {| status := 200;
             headers :=
               [ (lit "Content-Type", HStr (lit "video/mp4"));
                 (lit "Content-Length", HNum fileSize);
                 (lit "Content-Disposition", HStr disposition) ];
             body := FileStream content |} in
      match range with
      | Some r =>
          if truthy r then
            let parts := split 45 (replaceFirst (lit "bytes=") [] r) in
            let start := parseInt (nth 0 parts []) in
            let end_ :=
              if truthy (nth 1 parts []) then parseInt (nth 1 parts [])
              else nsub fileSize (Num 1) in
            let chunksize := nadd (nsub end_ start) (Num 1) in
            match createReadStream content start end_ with
            | inl error =>
                {| status := 500; headers := []; body := JsonError error |}
            | inr file =>
                {| status := 206;
                   headers :=
                     [ (lit "Content-Range",
                        HStr (lit "bytes " ++ numToString start ++ [45%N]
                              ++ numToString end_ ++ [47%N]
                              ++ numToString fileSize));
                       (lit "Accept-Ranges", HStr (lit "bytes"));
                       (lit "Content-Length", HNum chunksize);
                       (lit "Content-Type", HStr (lit "video/mp4")) ];
                   body := FileStream file |}
            end
          else fullFile
      | None => fullFile
      end
  end.

End Handler.

(** A store holding one file of [n] zero bytes at [path]. *)
Definition oneFile (path : jsstring) (n : nat) : FileSystem :=
  fun p => if eqb_str p path then Some (repeat Byte.x00 n) else None.

(** The store of the examples: a 1000-byte output of session [s1]. *)
Definition store1000 : FileSystem :=
  oneFile (lit "/tmp/output/s1/trimmed_1.mp4") 1000.

Definition get1000 (range : option jsstring) : Response :=
  getOutput (lit "/tmp/output") store1000 (lit "s1") (lit "trimmed_1.mp4")
    range.

End RangeServer.

(** ** Process: [POST /api/process] *)

Module Process.

(** The operations of JavaScript numbers the handler uses.  The deployed
    instance is IEEE 754 binary64; the rationals give the same program
    read in exact arithmetic. *)
Class JsNumber (num : Type) := {
  nsub : num -> num -> num;
  nadd : num -> num -> num;
  nleb : num -> num -> bool;
  nzero : num;
  (** [!x]: NaN and the zeros are falsy *)
  nfalsy : num -> bool
}.

#[global] Instance Float64 : JsNumber float := {
  nsub := PrimFloat.sub;
  nadd := PrimFloat.add;
  nleb := PrimFloat.leb;
  nzero := PrimFloat.zero;
  nfalsy := fun x => PrimFloat.is_nan x || PrimFloat.is_zero x
}.

#[global] Instance Exact : JsNumber Q := {
  nsub := Qminus;
  nadd := Qplus;
  nleb := Qle_bool;
  nzero := 0%Q;
  nfalsy := fun x => Qeq_bool x 0%Q
}.

(** The rational number a finite double stands for. *)
Definition exactValue (x : float) : option Q :=
  match Prim2SF x with
  | S754_zero _ => Some 0%Q
  | S754_finite s m e =>
      Some ((if s then (-1)%Q else 1%Q) * inject_Z (Z.pos m) * Qpower 2 e)%Q
  | _ => None
  end.

Definition exactly (x : float) : Q :=
  match exactValue x with Some q => q | None => 0%Q end.

(** The three revisions of the handler found in the repository. *)
Inductive Variant :=
| ApiReencode   (* api/index.js: re-encode, [-ss] and [-to] after the input *)
| ApiCopy       (* api/index.js, stream-copy revision: [-ss] before the input, [-t] *)
| ServerCopy.   (* server/index.js: [setStartTime], [setDuration], stream copy *)

Record FileRef := { originalName : jsstring; uploadPath : jsstring }.

Record ProcessedFile := {
  pfOriginalName : jsstring;
  fileName : jsstring;
  url : jsstring
}.

Inductive Response :=
| Json (sessionId : jsstring) (files : list ProcessedFile)
| Failure (status : Z) (error : jsstring).

Inductive Seek := AfterInput | BeforeInput.
Inductive Codec := Reencode | StreamCopy.

(** [outputBaseName ? outputBaseName.trim() : ''], then [|| 'trimmed']. *)
Definition baseName (outputBaseName : option jsstring) : jsstring :=
  let trimmedBaseName :=
    match outputBaseName with
    | Some s => if truthy s then trim s else []
    | None => []
    end in
  orElse trimmedBaseName (lit "trimmed").

(** [path.extname(file.originalName) || '.mp4'] *)
Definition originalExt (file : FileRef) : jsstring :=
  orElse (NodePath.extname (originalName file)) (lit ".mp4").

(** [`${baseName}_${i + 1}${originalExt}`] *)
Definition outputFileName (baseName : jsstring) (i : nat) (file : FileRef)
  : jsstring :=
  baseName ++ [95%N] ++ dec (N.of_nat i + 1) ++ originalExt file.

Definition urlPrefix (v : Variant) : jsstring :=
  match v with
  | ServerCopy => lit "/output/"
  | _ => lit "/api/output/"
  end.

Section Pipeline.

Variable num : Type.
Context {JN : JsNumber num}.

(** [x || 0] *)
Definition orZero (x : num) : num := if nfalsy x then nzero else x.

Inductive Bound :=
| To (endTime : num)
| Duration (newDuration : num).

(** What the planning step hands to the engine: the seek position and
    either the absolute end time or the length of the output. *)
Record Window := { startTime : num; bound : Bound }.

(** The end of the interval a window selects on the source time line. *)
Definition windowEnd (w : Window) : num :=
  match bound w with
  | To endTime => endTime
  | Duration newDuration => nadd (startTime w) newDuration
  end.

(** api/index.js: [endTime = videoDuration - trimEndSeconds], skipped
    when [endTime <= trimStartSeconds]. *)
Definition planEndTime (videoDuration trimStartSeconds trimEndSeconds : num)
  : option Window :=
  let endTime := nsub videoDuration trimEndSeconds in
  if nleb endTime trimStartSeconds then None
  else Some {| startTime := trimStartSeconds; bound := To endTime |}.

(** The stream-copy revisions:
    [newDuration = videoDuration - trimStartSeconds - trimEndSeconds],
    skipped when [newDuration <= 0]. *)
Definition planNewDuration (videoDuration trimStartSeconds trimEndSeconds : num)
  : option Window :=
  let newDuration := nsub (nsub videoDuration trimStartSeconds) trimEndSeconds in
  if nleb newDuration nzero then None
  else Some {| startTime := trimStartSeconds; bound := Duration newDuration |}.

Definition plan (v : Variant) : num -> num -> num -> option Window :=
  match v with
  | ApiReencode => planEndTime
  | ApiCopy | ServerCopy => planNewDuration
  end.

(** One invocation of the transcoding engine. *)
Record Command := {
  input : jsstring;
  seek : Seek;
  window : Window;
  codec : Codec;
  output : jsstring
}.

Definition command (v : Variant) (uploadPath : jsstring) (w : Window)
    (outputPath : jsstring) : Command :=
  {| input := uploadPath;
     seek := match v with ApiReencode => AfterInput | _ => BeforeInput end;
     window := w;
     codec := match v with ApiReencode => Reencode | _ => StreamCopy end;
     output := outputPath |}.

(** The world outside the handler: the file system and the engine. *)
Variable World : Type.
Variable pathExists : World -> jsstring -> bool.
(** [ffprobe]: an error, or [metadata.format.duration] *)
Variable ffprobe : World -> jsstring -> jsstring + num.
(** running a command to its [end] or [error] event *)
Variable ffmpeg : World -> Command -> World * option jsstring.

Variable OUTPUT_DIR : jsstring.

Record LoopState := {
  world : World;
  processedFiles : list ProcessedFile;
  issued : list Command   (* the engine invocations so far, oldest first *)
}.

Inductive Completion :=
| Normal
| Throw (error : jsstring).

(** The body of [for (let i = 0; i < files.length; i++)], from index [i]
    on, [files] being the files not yet visited. *)
Fixpoint processLoop (v : Variant) (sessionId sessionDir baseName : jsstring)
    (trimStartSeconds trimEndSeconds : num)
    (i : nat) (files : list FileRef) (st : LoopState)
  : LoopState * Completion :=
  match files with
  | [] => (st, Normal)
  | file :: rest =>
      let continue_ st' :=
        processLoop v sessionId sessionDir baseName
          trimStartSeconds trimEndSeconds (S i) rest st' in
      if negb (pathExists (world st) (uploadPath file)) then continue_ st
      else
        let outputFileName := outputFileName baseName i file in
        let outputPath := NodePath.join [sessionDir; outputFileName] in
        match ffprobe (world st) (uploadPath file) with
        | inl err => (st, Throw err)
        | inr videoDuration =>
            match plan v videoDuration trimStartSeconds trimEndSeconds with
            | None => continue_ st
            | Some w =>
                let cmd := command v (uploadPath file) w outputPath in
                let '(world', outcome) := ffmpeg (world st) cmd in
                match outcome with
                | Some err =>
                    ({| world := world';
                        processedFiles := processedFiles st;
                        issued := issued st ++ [cmd] |}, Throw err)
                | None =>
                    continue_
                      {| world := world';
                         processedFiles :=
                           processedFiles st ++
                           [{| pfOriginalName := originalName file;
                               fileName := outputFileName;
                               url := urlPrefix v ++ sessionId ++ [47%N]
                                      ++ outputFileName |}];
                         issued := issued st ++ [cmd] |}
                end
            end
        end
  end.

(** The request body.  [trimStart] and [trimEnd] stand for the values
    of [parseFloat(trimStart)] and [parseFloat(trimEnd)]; an absent
    [files] takes the same branch as an empty list. *)
Record Request := {
  sessionId : option jsstring;
  files : list FileRef;
  trimStart : num;
  trimEnd : num;
  outputBaseName : option jsstring
}.

Definition missing (s : option jsstring) : bool :=
  match s with Some x => negb (truthy x) | None => true end.

Definition run (v : Variant) (w : World) (req : Request)
  : LoopState * Completion :=
  let sid := match sessionId req with Some x => x | None => [] end in
  processLoop v sid (NodePath.join [OUTPUT_DIR; sid])
    (baseName (outputBaseName req))
    (orZero (trimStart req)) (orZero (trimEnd req))
    0 (files req)
    {| world := w; processedFiles := []; issued := [] |}.

(** The handler: the response, and the engine invocations it made. *)
Definition process (v : Variant) (w : World) (req : Request)
  : Response * list Command :=
  if missing (sessionId req) || (List.length (files req) =? 0)%nat
  then (Failure 400 (lit "Missing required parameters"), [])
  else
    let sid := match sessionId req with Some x => x | None => [] end in
    match run v w req with
    | (st, Normal) => (Json sid (processedFiles st), issued st)
    | (st, Throw error) => (Failure 500 error, issued st)
    end.

End Pipeline.

End Process.

(** ** Directories and stored names *)

Module Storage.

(** [path.join(TMP_DIR, 'uploads')] and its siblings; [root] is
    [TMP_DIR], that is ['/tmp'], in api/index.js and [__dirname] in
    server/index.js. *)
Definition UPLOAD_DIR (root : jsstring) : jsstring :=
  NodePath.join [root; lit "uploads"].
Definition OUTPUT_DIR (root : jsstring) : jsstring :=
  NodePath.join [root; lit "output"].
Definition ZIP_DIR (root : jsstring) : jsstring :=
  NodePath.join [root; lit "zips"].

(** The multer [filename] callback: [`${uuidv4()}-${file.originalname}`],
    [uuid] being the value [uuidv4()] returned. *)
Definition uniqueName (uuid : jsstring) (file : Upload.File) : jsstring :=
  uuid ++ [45%N] ++ Upload.originalname file.

(** An element of [req.files]: the file as it was sent and the [path]
    multer stored it under. *)
Record Stored := { file : Upload.File; path : jsstring }.

Inductive UploadResponse :=
| Uploaded (sessionId : jsstring) (files : list Process.FileRef)
| UploadFailure (status : Z) (error : jsstring).

Section UploadHandler.

Variable World : Type.
(** [fs.ensureDir] *)
Variable ensureDir : World -> jsstring -> World * option jsstring.
Variable OUTPUT_DIR : jsstring.

(** [POST /api/upload], after multer: [reqFiles] is [req.files] and
    [uuid] the value [uuidv4()] returned. *)
Definition upload (w : World) (reqFiles : option (list Stored))
    (uuid : jsstring) : World * UploadResponse :=
  if match reqFiles with
     | None => true
     | Some l => (List.length l =? 0)%nat
     end
  then (w, UploadFailure 400 (lit "No files uploaded"))
  else
    let reqFiles := match reqFiles with Some l => l | None => [] end in
    let sessionId := uuid in
    let sessionDir := NodePath.join [OUTPUT_DIR; sessionId] in
    match ensureDir w sessionDir with
    | (w', Some error) => (w', UploadFailure 500 error)
    | (w', None) =>
        let files :=
          List.map (fun f => (Upload.originalname (file f), path f, sessionId))
            reqFiles in
        (w', Uploaded sessionId
               (List.map (fun f =>
                            {| Process.originalName := fst (fst f);
                               Process.uploadPath := snd (fst f) |})
                  files))
    end.

End UploadHandler.

End Storage.

(** ** Create-archive, retrieve-archive and cleanup *)

Module Archive.

Inductive Response :=
| ZipJson (zipUrl fileName : jsstring)
| CleanedUp
| Failure (status : Z) (error : jsstring)
(** the promise the handler returned was rejected; no response was sent
    by the handler itself *)
| Rejected (error : jsstring).

(** [`trimmed_videos_${sessionId}.zip`] *)
Definition zipFileName (sessionId : jsstring) : jsstring :=
  lit "trimmed_videos_" ++ sessionId ++ lit ".zip".

Section Handlers.

Variable World : Type.
Variable pathExists : World -> jsstring -> bool.
(** [archive.directory(sessionDir, false)] piped to a write stream on
    [zipPath], up to the [close] of the stream or the [error] of the
    archive *)
Variable archiveDirectory :
  World -> jsstring -> jsstring -> World * option jsstring.
(** [fs.remove] *)
Variable remove : World -> jsstring -> World * option jsstring.

Variables OUTPUT_DIR ZIP_DIR : jsstring.
(** ['/api/zips/'] in api/index.js, ['/zips/'] in server/index.js *)
Variable zipUrlPrefix : jsstring.

(** [POST /api/create-zip]: the response and the path archived to, if
    the archiver was started. *)
Definition createZip (w : World) (sessionId : option jsstring)
  : World * Response * option jsstring :=
  if Process.missing sessionId
  then (w, Failure 400 (lit "Missing sessionId"), None)
  else
    let sid := match sessionId with Some x => x | None => [] end in
    let sessionDir := NodePath.join [OUTPUT_DIR; sid] in
    let zipFileName := zipFileName sid in
    let zipPath := NodePath.join [ZIP_DIR; zipFileName] in
    if negb (pathExists w sessionDir)
    then (w, Failure 404 (lit "Session not found"), None)
    else
      match archiveDirectory w sessionDir zipPath with
      | (w', None) =>
          (w', ZipJson (zipUrlPrefix ++ zipFileName) zipFileName, Some zipPath)
      | (w', Some err) => (w', Rejected err, Some zipPath)
      end.

(** [DELETE /api/cleanup/:sessionId]: the response and the path
    removed. *)
Definition cleanup (w : World) (sessionId : jsstring)
  : World * Response * jsstring :=
  let sessionDir := NodePath.join [OUTPUT_DIR; sessionId] in
  match remove w sessionDir with
  | (w', None) => (w', CleanedUp, sessionDir)
  | (w', Some error) => (w', Failure 500 error, sessionDir)
  end.

End Handlers.

(** [GET /api/zips/:filename] *)
Definition getZip (ZIP_DIR : jsstring) (fs : RangeServer.FileSystem)
    (filename : jsstring) : RangeServer.Response :=
  let filePath := NodePath.join [ZIP_DIR; filename] in
  match fs filePath with
  | None =>
      {| RangeServer.status := 404; RangeServer.headers := [];
         RangeServer.body :=
           RangeServer.JsonError (RangeServer.Text (lit "File not found")) |}
  | Some content =>
      let disposition :=
        lit "attachment; filename=" ++ [RangeServer.quote] ++ filename
          ++ [RangeServer.quote] in
      (* [res.setHeader] throws on a value with an invalid character *)
      if RangeServer.checkInvalidHeaderChar disposition then
        {| RangeServer.status := 500; RangeServer.headers := [];
           RangeServer.body :=
             RangeServer.JsonError
               (RangeServer.ERR_INVALID_CHAR (lit "Content-Disposition")) |}
      else
        {| RangeServer.status := 200;
           RangeServer.headers :=
             [ (lit "Content-Type", RangeServer.HStr (lit "application/zip"));
               (lit "Content-Disposition", RangeServer.HStr disposition) ];
           RangeServer.body := RangeServer.FileStream content |}
  end.

End Archive.

(** ** The client: the upload queue of App.js *)

Module Client.

(** A browser [File]. *)
Record BrowserFile := { name : jsstring; type : jsstring; size : Z }.

(** [file.type.startsWith('video/')] *)
Definition isVideo (file : BrowserFile) : bool :=
  startsWith (lit "video/") (type file).

(** The part of the component state that the queue and the header
    controls read and write. *)
Record State := {
  files : list BrowserFile;
  trimStart : float;
  trimEnd : float;
  outputBaseName : jsstring;
  isDragging : bool;
  processedFiles : list Process.ProcessedFile;
  zipUrl : option jsstring
}.

(** [useState([])], [useState(0.4)], [useState(0.4)], [useState('')],
    [useState(false)], [useState([])], [useState(null)] *)
Definition initial : State :=
  {| files := []; trimStart := (4 / 10)%float; trimEnd := (4 / 10)%float;
     outputBaseName := []; isDragging := false;
     processedFiles := []; zipUrl := None |}.

Definition setFiles (st : State) (f : list BrowserFile -> list BrowserFile)
  : State :=
  {| files := f (files st); trimStart := trimStart st; trimEnd := trimEnd st;
     outputBaseName := outputBaseName st; isDragging := isDragging st;
     processedFiles := processedFiles st; zipUrl := zipUrl st |}.

Definition setIsDragging (st : State) (b : bool) : State :=
  {| files := files st; trimStart := trimStart st; trimEnd := trimEnd st;
     outputBaseName := outputBaseName st; isDragging := b;
     processedFiles := processedFiles st; zipUrl := zipUrl st |}.

Definition handleDragOver (st : State) : State := setIsDragging st true.
Definition handleDragLeave (st : State) : State := setIsDragging st false.

(** [handleDrop]: [dataTransfer] is [Array.from(e.dataTransfer.files)]. *)
Definition handleDrop (st : State) (dataTransfer : list BrowserFile) : State :=
  let st1 := setIsDragging st false in
  let droppedFiles := filter isVideo dataTransfer in
  if (0 <? List.length droppedFiles)%nat
  then setFiles st1 (fun prev => prev ++ droppedFiles)
  else st1.

(** [handleFileSelect]: [target] is [Array.from(e.target.files)]. *)
Definition handleFileSelect (st : State) (target : list BrowserFile) : State :=
  let selectedFiles := filter isVideo target in
  if (0 <? List.length selectedFiles)%nat
  then setFiles st (fun prev => prev ++ selectedFiles)
  else st.

(** [prev.filter((_, i) => i !== index)], from position [i] on. *)
Fixpoint filterIndex (index i : nat) (prev : list BrowserFile)
  : list BrowserFile :=
  match prev with
  | [] => []
  | x :: r =>
      if negb (i =? index)%nat then x :: filterIndex index (S i) r
      else filterIndex index (S i) r
  end.

Definition removeFile (st : State) (index : nat) : State :=
  setFiles st (fun prev => filterIndex index 0 prev).

Definition clearQueue (st : State) : State :=
  {| files := []; trimStart := trimStart st; trimEnd := trimEnd st;
     outputBaseName := outputBaseName st; isDragging := isDragging st;
     processedFiles := []; zipUrl := None |}.

(** [setOutputBaseName(e.target.value)] *)
Definition setOutputBaseName (st : State) (value : jsstring) : State :=
  {| files := files st; trimStart := trimStart st; trimEnd := trimEnd st;
     outputBaseName := value; isDragging := isDragging st;
     processedFiles := processedFiles st; zipUrl := zipUrl st |}.

(** [setTrimStart(parseFloat(e.target.value) || 0)], [parsed] being the
    value of [parseFloat(e.target.value)]. *)
Definition setTrimStart (st : State) (parsed : float) : State :=
  {| files := files st; trimStart := Process.orZero parsed;
     trimEnd := trimEnd st;
     outputBaseName := outputBaseName st; isDragging := isDragging st;
     processedFiles := processedFiles st; zipUrl := zipUrl st |}.

(** [setTrimEnd(parseFloat(e.target.value) || 0)] *)
Definition setTrimEnd (st : State) (parsed : float) : State :=
  {| files := files st; trimStart := trimStart st;
     trimEnd := Process.orZero parsed;
     outputBaseName := outputBaseName st; isDragging := isDragging st;
     processedFiles := processedFiles st; zipUrl := zipUrl st |}.

(** What the user does to the queue and the header controls. *)
Inductive Action :=
| DragOver
| DragLeave
| Drop (dataTransfer : list BrowserFile)
| FileSelect (target : list BrowserFile)
| RemoveFile (index : nat)
| ClearQueue
| TypeName (value : jsstring)
| TypeTrimStart (parsed : float)
| TypeTrimEnd (parsed : float).

Definition step (st : State) (a : Action) : State :=
  match a with
  | DragOver => handleDragOver st
  | DragLeave => handleDragLeave st
  | Drop dataTransfer => handleDrop st dataTransfer
  | FileSelect target => handleFileSelect st target
  | RemoveFile index => removeFile st index
  | ClearQueue => clearQueue st
  | TypeName value => setOutputBaseName st value
  | TypeTrimStart parsed => setTrimStart st parsed
  | TypeTrimEnd parsed => setTrimEnd st parsed
  end.

Definition run (actions : list Action) : State :=
  fold_left step actions initial.

(** The [outputBaseName] field of the body [handleUploadAndProcess]
    posts to [/api/process]: [outputBaseName.trim()]. *)
Definition postedBaseName (st : State) : option jsstring :=
  Some (trim (outputBaseName st)).

(** What [parseFloat] reads on the server from a number of the JSON
    body: [JSON.stringify] writes NaN and the infinities as [null],
    which [parseFloat] reads as NaN; any other number comes back as it
    was. *)
Definition jsonNumber (x : float) : float :=
  if PrimFloat.is_nan x || PrimFloat.is_infinity x then PrimFloat.nan else x.

(** The cuts and the session the same body carries, [uploaded] being
    the [sessionId] and [files] of the upload response. *)
Definition postedRequest (st : State) (newSessionId : jsstring)
    (uploaded : list Process.FileRef) : Process.Request float :=
  {| Process.sessionId := Some newSessionId;
     Process.files := uploaded;
     Process.trimStart := jsonNumber (trimStart st);
     Process.trimEnd := jsonNumber (trimEnd st);
     Process.outputBaseName := postedBaseName st |}.

(** The download name of the archive:
    [`${outputBaseName || 'trimmed'}_all.zip`]. *)
Definition zipFilename (st : State) : jsstring :=
  orElse (outputBaseName st) (lit "trimmed") ++ lit "_all.zip".

End Client.

(** ** Scenes for the examples

    A session [s1] with three uploads; an engine and a file system
    whose answers depend on the path only.  Numbers are doubles. *)

Module Scenario.

Import Process.

Definition fileA : FileRef :=
  {| originalName := lit "a.mp4"; uploadPath := lit "/tmp/uploads/u1-a.mp4" |}.
Definition fileB : FileRef :=
  {| originalName := lit "b.mov"; uploadPath := lit "/tmp/uploads/u2-b.mov" |}.
Definition fileC : FileRef :=
  {| originalName := lit "c.webm"; uploadPath := lit "/tmp/uploads/u3-c.webm" |}.

Definition allExist (_ : unit) (_ : jsstring) : bool := true.

Definition existExcept (gone : jsstring) (_ : unit) (p : jsstring) : bool :=
  negb (eqb_str p gone).

(** Every video lasts ten seconds. *)
Definition probe10 (_ : unit) (_ : jsstring) : jsstring + float :=
  inr 10%float.

(** Every video lasts ten seconds, but probing [bad] fails. *)
Definition probe10Except (bad : jsstring) (_ : unit) (p : jsstring)
  : jsstring + float :=
  if eqb_str p bad then inl (lit "ffprobe exited with code 1")
  else inr 10%float.

Definition engineOk (_ : unit) (_ : Command float) : unit * option jsstring :=
  (tt, None).


Definition OUTPUT_DIR : jsstring := lit "/tmp/output".

(** Cut one second at each end of the three uploads. *)
Definition request (base : option jsstring) : Request float :=
  {| sessionId := Some (lit "s1");
     files := [fileA; fileB; fileC];
     trimStart := 1%float;
     trimEnd := 1%float;
     outputBaseName := base |}.

(** The state in which a batch starts. *)
Definition idle (w : unit) : LoopState float unit :=
  {| world := w; processedFiles := []; issued := [] |}.

(** Every video lasts ten seconds, except [short], which lasts one and
    a half. *)
Definition probeShort (short : jsstring) (_ : unit) (p : jsstring)
  : jsstring + float :=
  if eqb_str p short then inr (3 / 2)%float else inr 10%float.

(** An upload named [clip.mp4x] that declares the type [video/mp4]. *)
Definition clipMp4x : Upload.File :=
  {| Upload.originalname := lit "clip.mp4x";
     Upload.mimetype := lit "video/mp4" |}.

(** A one second video, 0.3 s cut at the start and 0.7 s at the end. *)
Definition oneSecond : float := 1%float.
Definition cutStart : float := (3 / 10)%float.
Definition cutEnd : float := (7 / 10)%float.

End Scenario.

(** ** Further scenes *)

Module MoreScenes.

Import Process.

(** Every video has the duration [d]. *)
Definition probeAll (d : float) (_ : unit) (_ : jsstring)
  : jsstring + float :=
  inr d.

(** The first invocation of ten-second uploads cut by one second at
    each end, in api/index.js. *)
Definition firstCommand : Command float :=
  {| input := lit "/tmp/uploads/u1-a.mp4";
     seek := AfterInput;
     window := {| startTime := 1%float; bound := To 9%float |};
     codec := Reencode;
     output := lit "/tmp/output/s1/trimmed_1.mp4" |}.

(** A [.mov] upload with the content type browsers report for it. *)
Definition quicktimeClip : Upload.File :=
  {| Upload.originalname := lit "holiday.mov";
     Upload.mimetype := lit "video/quicktime" |}.

Definition mp4Clip : Upload.File :=
  {| Upload.originalname := lit "Holiday.MP4";
     Upload.mimetype := lit "video/mp4" |}.

(** Files as the browser hands them over. *)
Definition videoFile : Client.BrowserFile :=
  {| Client.name := lit "a.mp4"; Client.type := lit "video/mp4";
     Client.size := 1000 |}.
Definition movFile : Client.BrowserFile :=
  {| Client.name := lit "b.mov"; Client.type := lit "video/quicktime";
     Client.size := 2000 |}.
Definition textFile : Client.BrowserFile :=
  {| Client.name := lit "notes.txt"; Client.type := lit "text/plain";
     Client.size := 10 |}.


(** A request that names a file outside the upload directory. *)
Definition strayRequest : Request float :=
  {| sessionId := Some (lit "s1");
     files := [{| originalName := lit "private.mov";
                  uploadPath := lit "/home/user/private.mov" |}];
     trimStart := 1%float;
     trimEnd := 1%float;
     outputBaseName := None |}.

(** The same upload as multer stored it. *)
Definition storedClip : Storage.Stored :=
  {| Storage.file := mp4Clip;
     Storage.path := lit "/tmp/uploads/u1-Holiday.MP4" |}.

Definition ensureOk (_ : unit) (_ : jsstring) : unit * option jsstring :=
  (tt, None).

(** An archiver and a file system that always succeed. *)
Definition archiveOk (_ : unit) (_ _ : jsstring) : unit * option jsstring :=
  (tt, None).
Definition removeOk (_ : unit) (_ : jsstring) : unit * option jsstring :=
  (tt, None).

End MoreScenes.

(** ** Vocabulary of the statements *)

(** A string made of white space only (the empty string included). *)
Definition blank (s : jsstring) : Prop :=
  Forall (fun c => isWhiteSpace c = true) s.

(** [w] occurs in [s]. *)
Definition occursIn (w s : jsstring) : Prop :=
  exists pre post, s = pre ++ w ++ post.

(** A proper path component: not empty, not [.], not [..]. *)
Definition isClean (s : jsstring) : bool :=
  truthy s && negb (eqb_str s [46%N]) && negb (eqb_str s NodePath.dotdot).

(** A piece between two separators of a normalized path: free of
    separators, and a proper component or empty. *)
Definition segOk (s : jsstring) : Prop :=
  ~ In 47%N s /\ (isClean s = true \/ s = []).

(** [l1] is [l2] with some elements left out, the order kept. *)
Inductive Subseq {A : Type} : list A -> list A -> Prop :=
| Subseq_nil : Subseq [] []
| Subseq_skip x l1 l2 : Subseq l1 l2 -> Subseq l1 (x :: l2)
| Subseq_keep x l1 l2 : Subseq l1 l2 -> Subseq (x :: l1) (x :: l2).

(** The files of a batch with their positions, counted from [i]. *)
Definition indexed (i : nat) (files : list Process.FileRef)
  : list (nat * Process.FileRef) :=
  combine (seq i (List.length files)) files.

(** The result entry of the file at position [fst p]. *)
Definition entryOf (v : Process.Variant) (sid base : jsstring)
    (p : nat * Process.FileRef) : Process.ProcessedFile :=
  {| Process.pfOriginalName := Process.originalName (snd p);
     Process.fileName := Process.outputFileName base (fst p) (snd p);
     Process.url := Process.urlPrefix v ++ sid ++ [47%N]
                    ++ Process.outputFileName base (fst p) (snd p) |}.

(** The invariant of the queue and the cuts. *)
Definition queueOk (st : Client.State) : Prop :=
  Forall (fun f => Client.isVideo f = true) (Client.files st)
  /\ PrimFloat.is_nan (Client.trimStart st) = false
  /\ PrimFloat.is_nan (Client.trimEnd st) = false.

(** The cuts are values that [x || 0] leaves alone. *)
Definition cutsOk (st : Client.State) : Prop :=
  Process.orZero (Client.trimStart st) = Client.trimStart st
  /\ Process.orZero (Client.trimEnd st) = Client.trimEnd st.

(** The value of a response header. *)
Definition header (name : jsstring) (r : RangeServer.Response)
  : option RangeServer.HeaderValue :=
  match find (fun h => eqb_str (fst h) name) (RangeServer.headers r) with
  | Some h => Some (snd h)
  | None => None
  end.

(* ===================================================================== *)
(** * Part II: properties                                                 *)
(* ===================================================================== *)

Import NodePath RangeServer.

(** ** The run-time model on the examples of its documentation *)

Example extname_html : extname (lit "index.html") = lit ".html".
Proof. vm_compute. reflexivity. Qed.

Example extname_two_dots : extname (lit "index.coffee.md") = lit ".md".
Proof. vm_compute. reflexivity. Qed.

Example extname_trailing_dot : extname (lit "index.") = lit ".".
Proof. vm_compute. reflexivity. Qed.

Example extname_none : extname (lit "index") = [].
Proof. vm_compute. reflexivity. Qed.

Example extname_hidden : extname (lit ".index") = [].
Proof. vm_compute. reflexivity. Qed.

Example extname_hidden_md : extname (lit ".index.md") = lit ".md".
Proof. vm_compute. reflexivity. Qed.

Example extname_parent : extname (lit "clips/..") = [].
Proof. vm_compute. reflexivity. Qed.

Example join_doc :
  join [lit "/foo"; lit "bar"; lit "baz/asdf"; lit "quux"; lit ".."]
  = lit "/foo/bar/baz/asdf".
Proof. vm_compute. reflexivity. Qed.

Example normalize_doc :
  normalize (lit "/foo/bar//baz/asdf/quux/..") = lit "/foo/bar/baz/asdf".
Proof. vm_compute. reflexivity. Qed.

Example normalize_relative :
  normalize (lit "../a/../../b/") = lit "../../b/".
Proof. vm_compute. reflexivity. Qed.

Example join_output_dir : join [lit "/tmp"; lit "output"] = lit "/tmp/output".
Proof. vm_compute. reflexivity. Qed.

Example parseInt_prefix : parseInt (lit "  -12ab") = Num (-12).
Proof. vm_compute. reflexivity. Qed.

Example parseInt_NaN : parseInt (lit "abc") = NaN.
Proof. vm_compute. reflexivity. Qed.

Example parseInt_rounds :
  parseInt (lit "9007199254740993") = Num 9007199254740992
  /\ parseInt (lit "9007199254740995") = Num 9007199254740996
  /\ parseInt (lit "18446744073709551615") = Num 18446744073709551616.
Proof. vm_compute. repeat split. Qed.

Example toNumber_overflows :
  toNumber (2 ^ 1024 - 2 ^ 970) = PosInfinity
  /\ toNumber (2 ^ 1024 - 2 ^ 970 - 1) = Num (2 ^ 1024 - 2 ^ 971)
  /\ toNumber (- 10 ^ 400) = NegInfinity.
Proof. vm_compute. repeat split. Qed.

Example split_range : split 45 (lit "0-99") = [lit "0"; lit "99"].
Proof. vm_compute. reflexivity. Qed.

Example split_suffix_range : split 45 (lit "-500") = [[]; lit "500"].
Proof. vm_compute. reflexivity. Qed.

Example replace_first_only :
  replaceFirst (lit "bytes=") [] (lit "xbytes=1-2bytes=") = lit "x1-2bytes=".
Proof. vm_compute. reflexivity. Qed.

Example trim_both_ends : trim (lit "  a b  ") = lit "a b".
Proof. vm_compute. reflexivity. Qed.

(** A session identifier with [..] moves the session directory itself
    out of the output root. *)
Example session_directory_of_dotdot :
  join [lit "/tmp/output"; lit "../../etc"] = lit "/etc".
Proof. vm_compute. reflexivity. Qed.

(** ** Strings *)


Lemma dropWhile_head (p : N -> bool) (s : jsstring) c r :
  dropWhile p s = c :: r -> p c = false.
Proof.
  induction s as [|d t IH]; simpl; [discriminate|].
  destruct (p d) eqn:Hd; [exact IH|].
  intros H; inversion H; subst; assumption.
Qed.

Lemma dropWhile_suffix (p : N -> bool) (s : jsstring) :
  exists pre, s = pre ++ dropWhile p s /\ Forall (fun c => p c = true) pre.
Proof.
  induction s as [|c r [pre [E F]]]; simpl.
  - exists []; auto.
  - destruct (p c) eqn:Hc.
    + exists (c :: pre); split; [simpl; congruence | constructor; assumption].
    + exists []; auto.
Qed.

Lemma takeWhile_dropWhile (p : N -> bool) (s : jsstring) :
  takeWhile p s ++ dropWhile p s = s.
Proof.
  induction s as [|c r IH]; simpl; [reflexivity|].
  destruct (p c); simpl; congruence.
Qed.

Lemma takeWhile_all (p : N -> bool) (s : jsstring) :
  Forall (fun c => p c = true) s -> takeWhile p s = s.
Proof.
  induction 1 as [|c r Hc _ IH]; simpl; [reflexivity|].
  rewrite Hc, IH; reflexivity.
Qed.

Lemma takeWhile_Forall (p : N -> bool) (s : jsstring) :
  Forall (fun c => p c = true) (takeWhile p s).
Proof.
  induction s as [|c r IH]; simpl; [constructor|].
  destruct (p c) eqn:Hc; constructor; assumption.
Qed.



(** [trim] removes white space at both ends and nothing else. *)
Lemma trim_spec (s : jsstring) :
  exists pre post, s = pre ++ trim s ++ post /\ blank pre /\ blank post.
Proof.
  unfold trim, trimEnd, trimStart.
  destruct (dropWhile_suffix isWhiteSpace s) as [pre [E1 F1]].
  destruct (dropWhile_suffix isWhiteSpace (rev (dropWhile isWhiteSpace s)))
    as [post' [E2 F2]].
  exists pre, (rev post'). split; [|split].
  - rewrite E1 at 1. f_equal.
    rewrite <- (rev_involutive (dropWhile isWhiteSpace s)) at 1.
    rewrite E2 at 1. rewrite rev_app_distr. reflexivity.
  - exact F1.
  - unfold blank. apply Forall_rev. exact F2.
Qed.

(** ** C9: the output base name *)



(** ** [path.extname] *)

Lemma takeWhile_incl (p : N -> bool) (s : jsstring) c :
  In c (takeWhile p s) -> In c s.
Proof.
  induction s as [|d r IH]; simpl; [tauto|].
  destruct (p d); simpl; [|tauto]. intros [E|H]; auto.
Qed.



Lemma revBase_no_slash (p : jsstring) : ~ In 47%N (revBase p).
Proof.
  unfold revBase. intros H.
  pose proof (takeWhile_Forall notSlash (dropWhile isSlash (rev p))) as F.
  rewrite Forall_forall in F. specialize (F _ H). discriminate.
Qed.


(** An extension is empty or starts with a dot. *)
Lemma extname_shape (p : jsstring) :
  extname p = [] \/ exists e, extname p = 46%N :: e.
Proof.
  unfold extname.
  destruct (dropWhile notDot (revBase p)) as [|d [|x stem]]; auto.
  destruct (truthy _ || _); eauto.
Qed.

(** An extension never holds a path separator. *)
Lemma extname_no_slash (p : jsstring) : ~ In 47%N (extname p).
Proof.
  unfold extname.
  destruct (dropWhile notDot (revBase p)) as [|d [|x stem]]; simpl; auto.
  destruct (truthy _ || _); simpl; auto.
  intros [E|H]; [discriminate|].
  apply in_rev in H. apply takeWhile_incl in H.
  exact (revBase_no_slash _ H).
Qed.

(** ** C10: the extension of the output file name *)



(** ** Substring tests *)

Lemma startsWith_spec (p s : jsstring) :
  startsWith p s = true <-> exists post, s = p ++ post.
Proof.
  revert s. induction p as [|a p IH]; intros s; simpl.
  - split; eauto.
  - destruct s as [|b s].
    + split; [discriminate|]. intros [post E]. discriminate.
    + rewrite andb_true_iff, N.eqb_eq, IH. split.
      * intros [-> [post ->]]. eauto.
      * intros [post E]. inversion E; subst. eauto.
Qed.

Lemma startsWith_app (p s : jsstring) : startsWith p (p ++ s) = true.
Proof. apply startsWith_spec. eauto. Qed.

Lemma includes_spec (w s : jsstring) :
  includes w s = true <-> occursIn w s.
Proof.
  unfold occursIn. induction s as [|c r IH].
  - simpl. rewrite orb_false_r, startsWith_spec. split.
    + intros [post E]. exists [], post. exact E.
    + intros [pre [post E]]. destruct pre; [eauto | discriminate].
  - simpl. rewrite orb_true_iff, startsWith_spec, IH. split.
    + intros [[post E] | [pre [post E]]].
      * exists [], post. exact E.
      * exists (c :: pre), post. simpl. congruence.
    + intros [[|d pre] [post E]].
      * left. eauto.
      * right. inversion E; subst. eauto.
Qed.

(** ** C7: the upload filter *)

Lemma allowedTypes_test_spec (s : jsstring) :
  Upload.allowedTypes_test s = true
  <-> exists w, In w Upload.allowList /\ occursIn w s.
Proof.
  unfold Upload.allowedTypes_test. rewrite existsb_exists.
  split; intros [w [I H]]; exists w; split; auto;
    apply includes_spec; exact H.
Qed.

(** C7, as the code has it. A file is accepted exactly when one of the
    words mp4, mov, avi, mkv, webm occurs somewhere in its lower-cased
    extension and one of them occurs somewhere in its content type; every
    other file is rejected with the error "Only video files are
    allowed". *)
Theorem fileFilter_accepts_iff (toLowerCase : jsstring -> jsstring)
    (file : Upload.File) :
  (Upload.fileFilter toLowerCase file = Upload.Accept
   <-> (exists w, In w Upload.allowList
          /\ occursIn w (toLowerCase (extname (Upload.originalname file))))
       /\ (exists w, In w Upload.allowList
          /\ occursIn w (Upload.mimetype file)))
  /\ (Upload.fileFilter toLowerCase file <> Upload.Accept ->
      Upload.fileFilter toLowerCase file
      = Upload.Reject (lit "Only video files are allowed")).
Proof.
  unfold Upload.fileFilter.
  rewrite <- !allowedTypes_test_spec.
  destruct (Upload.allowedTypes_test (toLowerCase _));
    destruct (Upload.allowedTypes_test (Upload.mimetype file)); simpl;
    (split; [split; [intros H; try discriminate; auto
                    | intros [A B]; try discriminate; auto]
            | intros H; try reflexivity; exfalso; apply H; reflexivity]).
Qed.

Lemma fileFilter_accepts_iff_witness :
  Upload.fileFilter Upload.asciiLower
    {| Upload.originalname := lit "Holiday.MP4";
       Upload.mimetype := lit "video/mp4" |} = Upload.Accept
  /\ Upload.fileFilter Upload.asciiLower
    {| Upload.originalname := lit "notes.txt";
       Upload.mimetype := lit "text/plain" |}
     = Upload.Reject (lit "Only video files are allowed").
Proof.
  split.
  - apply (fileFilter_accepts_iff Upload.asciiLower).
    split; exists (lit "mp4"); (split; [left; reflexivity|]).
    + exists (lit "."), []. vm_compute. reflexivity.
    + exists (lit "video/"), []. vm_compute. reflexivity.
  - apply (fileFilter_accepts_iff Upload.asciiLower).
    vm_compute. discriminate.
Defined.

(** C7 as stated fails: a file whose extension, [mp4x], is not on the
    allow-list is accepted, because the pattern is matched anywhere in
    the extension. *)
Lemma fileFilter_accepts_outside_allowList :
  Upload.fileFilter Upload.asciiLower Scenario.clipMp4x = Upload.Accept
  /\ Upload.extensionOf Scenario.clipMp4x = lit "mp4x"
  /\ ~ In (Upload.extensionOf Scenario.clipMp4x) Upload.allowList.
Proof.
  split; [vm_compute; reflexivity|]. split; [vm_compute; reflexivity|].
  vm_compute. intros H.
  repeat (destruct H as [H|H]; [discriminate H|]). exact H.
Qed.

(** ** Decimal numerals and [parseInt] *)

Lemma digitsFuel_app (f : nat) : forall n acc,
  digitsFuel f n acc = digitsFuel f n [] ++ acc.
Proof.
  induction f as [|f IH]; intros n acc; cbn [digitsFuel]; [reflexivity|].
  destruct (n <? 10)%N; [reflexivity|].
  rewrite IH. rewrite (IH _ [_]). rewrite <- app_assoc. reflexivity.
Qed.

Lemma digitsValue_snoc (ds : jsstring) (d : N) :
  digitsValue (ds ++ [d]) = (10 * digitsValue ds + (d - 48))%N.
Proof. unfold digitsValue. rewrite fold_left_app. reflexivity. Qed.

Lemma digitsFuel_value (f : nat) : forall n,
  (n < 2 ^ N.of_nat f)%N -> digitsValue (digitsFuel f n []) = n.
Proof.
  induction f as [|f IH]; intros n H.
  - simpl in *. change (2 ^ 0)%N with 1%N in H.
    destruct n; [reflexivity|lia].
  - cbn [digitsFuel]. destruct (N.ltb_spec n 10) as [L|L].
    + unfold digitsValue. cbn [fold_left].
      rewrite N.mod_small by exact L. clear. lia.
    + rewrite digitsFuel_app, digitsValue_snoc, IH.
      * pose proof (N.div_mod n 10 ltac:(lia)) as DM.
        remember (n / 10)%N as q. remember (n mod 10)%N as r.
        clear - DM. lia.
      * rewrite Nat2N.inj_succ, N.pow_succ_r' in H.
        apply N.Div0.div_lt_upper_bound. lia.
Qed.

Lemma digitsFuel_digits (f : nat) : forall n acc,
  Forall (fun c => isDigit c = true) acc ->
  Forall (fun c => isDigit c = true) (digitsFuel f n acc).
Proof.
  induction f as [|f IH]; intros n acc H; cbn [digitsFuel]; [exact H|].
  assert (D : isDigit (48 + n mod 10) = true).
  { unfold isDigit. pose proof (N.mod_lt n 10 ltac:(lia)) as M.
    remember (n mod 10)%N as r. clear - M.
    apply andb_true_intro. split; apply N.leb_le; lia. }
  destruct (n <? 10)%N; [constructor; assumption|].
  apply IH. constructor; assumption.
Qed.

Lemma digitsFuel_nonempty (f : nat) n acc : digitsFuel (S f) n acc <> [].
Proof.
  cbn [digitsFuel]. destruct (n <? 10)%N; [discriminate|].
  rewrite digitsFuel_app. intros E. apply app_eq_nil in E.
  destruct E; discriminate.
Qed.

Lemma dec_value (n : N) : digitsValue (dec n) = n.
Proof.
  unfold dec. apply digitsFuel_value.
  rewrite Nat2N.inj_succ, N2Nat.id.
  destruct n as [|p]; [reflexivity|].
  apply N.log2_spec. reflexivity.
Qed.

Lemma dec_digits (n : N) : Forall (fun c => isDigit c = true) (dec n).
Proof. apply digitsFuel_digits. constructor. Qed.

Lemma dec_nonempty (n : N) : dec n <> [].
Proof. apply digitsFuel_nonempty. Qed.

Lemma digit_not_in (c : N) (ds : jsstring) :
  isDigit c = false -> Forall (fun d => isDigit d = true) ds -> ~ In c ds.
Proof.
  intros Hc F I. rewrite Forall_forall in F. rewrite (F _ I) in Hc.
  discriminate.
Qed.

Lemma digit_not_space (c : N) : isDigit c = true -> isWhiteSpace c = false.
Proof.
  unfold isDigit, isWhiteSpace. intros H.
  apply andb_true_iff in H. destruct H as [A B].
  apply N.leb_le in A. apply N.leb_le in B.
  repeat match goal with
  | |- context [(?x <=? ?y)%N] => destruct (N.leb_spec x y); try lia
  | |- context [(?x =? ?y)%N] => destruct (N.eqb_spec x y); try lia
  end; reflexivity.
Qed.

Lemma stripSign_digit (c : N) (r : jsstring) :
  isDigit c = true -> stripSign (c :: r) = (false, c :: r).
Proof.
  intros Hc.
  assert (c <> 45%N /\ c <> 43%N) as [N1 N2].
  { split; intros ->; vm_compute in Hc; discriminate. }
  unfold stripSign. destruct c as [|p]; [reflexivity|].
  do 6 (destruct p as [p|p|]; try reflexivity); congruence.
Qed.

(** Up to 2^53 in magnitude every integer is a double. *)
Lemma roundToDouble_exact (z : Z) :
  (0 <= z <= 2 ^ 53)%Z -> roundToDouble z = Num z.
Proof.
  intros H. destruct (Z.eq_dec z (2 ^ 53)) as [->|NE];
    [vm_compute; reflexivity|].
  unfold roundToDouble.
  assert (L : (Z.log2 z + 1 <= 53)%Z).
  { destruct (Z.eq_dec z 0) as [->|NZ]; [vm_compute; discriminate|].
    assert (Z.log2 z < 53)%Z by (apply Z.log2_lt_pow2; lia). lia. }
  apply Z.leb_le in L. rewrite L. reflexivity.
Qed.

Lemma toNumber_exact (z : Z) :
  (- 2 ^ 53 <= z <= 2 ^ 53)%Z -> toNumber z = Num z.
Proof.
  intros H. unfold toNumber. destruct (Z.ltb_spec z 0).
  - rewrite roundToDouble_exact by lia. cbn [negate].
    rewrite Z.opp_involutive. reflexivity.
  - apply roundToDouble_exact. lia.
Qed.

(** From 2^53 on, the double of an integer is at least 2^53, or
    Infinity. *)
Lemma toNumber_large (z : Z) :
  (2 ^ 53 <= z)%Z ->
  toNumber z = PosInfinity \/ exists v, toNumber z = Num v /\ (2 ^ 53 <= v)%Z.
Proof.
  intros H. unfold toNumber.
  destruct (Z.ltb_spec z 0) as [Hn|_]; [lia|].
  unfold roundToDouble.
  assert (P : (0 < z)%Z) by lia.
  assert (L : (53 <= Z.log2 z)%Z) by (apply Z.log2_le_pow2; lia).
  destruct (Z.leb_spec (Z.log2 z + 1) 53) as [C|_]; [lia|].
  set (shift := (Z.log2 z + 1 - 53)%Z).
  assert (Hs : (1 <= shift)%Z) by (unfold shift; lia).
  set (q := Z.shiftr z shift).
  match goal with
  | |- context [Z.shiftl ?x shift] =>
      match x with
      | q => fail 1
      | _ => set (q' := x)
      end
  end.
  destruct (Z.leb_spec (2 ^ 1024) (Z.shiftl q' shift)) as [_|_];
    [left; reflexivity|].
  right. exists (Z.shiftl q' shift). split; [reflexivity|].
  assert (Q : (2 ^ 52 <= q)%Z).
  { unfold q. rewrite Z.shiftr_div_pow2 by lia.
    apply Z.div_le_lower_bound; [apply Z.pow_pos_nonneg; lia|].
    rewrite <- Z.pow_add_r by lia.
    replace (shift + 52)%Z with (Z.log2 z) by (unfold shift; lia).
    apply Z.log2_spec. exact P. }
  assert (Q' : (q <= q')%Z).
  { unfold q'. destruct (_ || _); lia. }
  rewrite Z.shiftl_mul_pow2 by lia.
  assert (T : (2 ^ 1 <= 2 ^ shift)%Z) by (apply Z.pow_le_mono_r; lia).
  change (2 ^ 53)%Z with (2 ^ 52 * 2 ^ 1)%Z.
  apply Z.mul_le_mono_nonneg; lia.
Qed.

(** [parseInt] reads a non-empty run of digits as its value. *)
Lemma parseInt_digits (ds : jsstring) :
  ds <> [] -> Forall (fun c => isDigit c = true) ds ->
  parseInt ds = toNumber (Z.of_N (digitsValue ds)).
Proof.
  intros NE F. unfold parseInt, trimStart.
  destruct ds as [|c r]; [congruence|].
  inversion F as [|? ? Hc Hr]; subst.
  cbn [dropWhile]. rewrite (digit_not_space _ Hc).
  rewrite (stripSign_digit c r Hc). rewrite (takeWhile_all _ F). reflexivity.
Qed.

Lemma parseInt_dec (n : N) : parseInt (dec n) = toNumber (Z.of_N n).
Proof.
  rewrite parseInt_digits by (apply dec_nonempty || apply dec_digits).
  rewrite dec_value. reflexivity.
Qed.

Lemma numToString_nat (n : N) : numToString (Num (Z.of_N n)) = dec n.
Proof.
  unfold numToString. destruct (Z.ltb_spec (Z.of_N n) 0); [lia|].
  rewrite N2Z.id. reflexivity.
Qed.

(** Printing and parsing a size or an offset round-trips. *)
Lemma parseInt_numToString (n : N) :
  (Z.of_N n <= 2 ^ 53)%Z ->
  parseInt (numToString (Num (Z.of_N n))) = Num (Z.of_N n).
Proof.
  intros H. rewrite numToString_nat, parseInt_dec. apply toNumber_exact. lia.
Qed.

(** ** [split] and [replace] *)

Lemma split_no_sep (sep : N) (xs : jsstring) :
  ~ In sep xs -> split sep xs = [xs].
Proof.
  induction xs as [|c r IH]; simpl; intros H; [reflexivity|].
  destruct (N.eqb_spec c sep) as [->|NE]; [exfalso; auto|].
  rewrite IH by tauto. reflexivity.
Qed.

Lemma split_app_sep (sep : N) (xs ys : jsstring) :
  ~ In sep xs -> split sep (xs ++ sep :: ys) = xs :: split sep ys.
Proof.
  induction xs as [|c r IH]; simpl; intros H.
  - rewrite N.eqb_refl. reflexivity.
  - destruct (N.eqb_spec c sep) as [->|NE]; [exfalso; auto|].
    rewrite IH by tauto. reflexivity.
Qed.

Lemma split_nonempty (sep : N) (s : jsstring) : split sep s <> [].
Proof.
  destruct s as [|c r]; simpl; [discriminate|].
  destruct (c =? sep)%N; [discriminate|].
  destruct (split sep r); discriminate.
Qed.

Lemma skipn_prefix (p s : jsstring) : skipn (List.length p) (p ++ s) = s.
Proof. induction p; simpl; auto. Qed.

Lemma replaceFirst_unfold (pat rep s : jsstring) :
  replaceFirst pat rep s
  = if startsWith pat s then rep ++ skipn (List.length pat) s
    else match s with
         | [] => []
         | c :: r => c :: replaceFirst pat rep r
         end.
Proof. destruct s; reflexivity. Qed.

Lemma replaceFirst_prefix (pat rep s : jsstring) :
  replaceFirst pat rep (pat ++ s) = rep ++ s.
Proof.
  rewrite replaceFirst_unfold, startsWith_app, skipn_prefix. reflexivity.
Qed.

(** ** C5 and C4: the byte-range file server *)

Lemma dec_no_minus (n : N) : ~ In 45%N (dec n).
Proof. apply digit_not_in; [reflexivity | apply dec_digits]. Qed.

Lemma range_parts_closed (a b : N) :
  split 45 (replaceFirst (lit "bytes=") []
              (lit "bytes=" ++ dec a ++ lit "-" ++ dec b))
  = [dec a; dec b].
Proof.
  rewrite replaceFirst_prefix. cbn [app].
  change (lit "-") with [45%N]. cbn [app].
  rewrite split_app_sep by apply dec_no_minus.
  rewrite split_no_sep by apply dec_no_minus. reflexivity.
Qed.


Lemma truthy_dec (n : N) : truthy (dec n) = true.
Proof.
  pose proof (dec_nonempty n). destruct (dec n); [congruence|reflexivity].
Qed.

Lemma validateInteger_offset (n : N) :
  (Z.of_N n <= MAX_SAFE_INTEGER)%Z -> validateInteger (Num (Z.of_N n)) = true.
Proof.
  intros H. unfold validateInteger.
  apply andb_true_intro. split; apply Z.leb_le; lia.
Qed.

Lemma createReadStream_slice (content : bytes) (a b : N) :
  (a <= b)%N -> (Z.of_N b <= MAX_SAFE_INTEGER)%Z ->
  createReadStream content (Num (Z.of_N a)) (Num (Z.of_N b))
  = inr (firstn (N.to_nat (b - a + 1)) (skipn (N.to_nat a) content)).
Proof.
  intros L M. unfold createReadStream.
  rewrite !validateInteger_offset by lia. cbn [negb isInfinity].
  unfold gtNum. destruct (Z.ltb_spec (Z.of_N b) (Z.of_N a)); [lia|].
  cbn [readBytes]. f_equal. f_equal; [|f_equal]; lia.
Qed.

(** An offset up to 2^53 - 1 is parsed exactly. *)
Lemma parseInt_offset (n : N) :
  (Z.of_N n <= MAX_SAFE_INTEGER)%Z -> parseInt (dec n) = Num (Z.of_N n).
Proof.
  intros H. rewrite parseInt_dec. apply toNumber_exact.
  unfold MAX_SAFE_INTEGER in H. lia.
Qed.

(** The length of a range of offsets up to 2^53 - 1 is computed exactly. *)
Lemma chunksize_exact (a b : N) :
  (a <= b)%N -> (Z.of_N b <= MAX_SAFE_INTEGER)%Z ->
  nadd (nsub (Num (Z.of_N b)) (Num (Z.of_N a))) (Num 1)
  = Num (Z.of_N (b - a + 1)).
Proof.
  intros L M. unfold MAX_SAFE_INTEGER in M. cbn [nsub].
  rewrite toNumber_exact by lia. cbn [nadd].
  rewrite toNumber_exact by lia. f_equal. lia.
Qed.

(** The fixed part of the disposition holds no invalid character. *)
Lemma checkInvalidHeaderChar_disposition (filename : jsstring) :
  checkInvalidHeaderChar
    (lit "attachment; filename=" ++ [quote] ++ filename ++ [quote])
  = checkInvalidHeaderChar filename.
Proof.
  unfold checkInvalidHeaderChar. rewrite !existsb_app.
  change (existsb (fun c => negb (headerChar c)) (lit "attachment; filename="))
    with false.
  change (existsb (fun c => negb (headerChar c)) [quote]) with false.
  cbn [orb]. apply orb_false_r.
Qed.





(** A numeral beyond the doubles is read as Infinity, which the read
    stream accepts as an end. *)
Example getOutput_infinite_end :
  get1000 (Some (lit "bytes=0-" ++ dec (10 ^ 400)))
  = {| status := 206;
       headers :=
         [ (lit "Content-Range", HStr (lit "bytes 0-Infinity/1000"));
           (lit "Accept-Ranges", HStr (lit "bytes"));
           (lit "Content-Length", HNum PosInfinity);
           (lit "Content-Type", HStr (lit "video/mp4")) ];
       body := FileStream (repeat Byte.x00 1000) |}.
Proof. vm_compute. reflexivity. Qed.

(** C4, as the code has it. A range header that is present and not empty
    is never treated as absent: the full-file response with status 200
    is not produced for it.  When the text before the first [-] (after
    removing [bytes=]) does not start with a number, the request ends in
    the error response with status 500. *)
Theorem getOutput_range_never_full (OUTPUT_DIR : jsstring) (fs : FileSystem)
    (sessionId filename : jsstring) (content : bytes) (r : jsstring) :
  fs (join [OUTPUT_DIR; sessionId; filename]) = Some content ->
  r <> [] ->
  status (getOutput OUTPUT_DIR fs sessionId filename (Some r)) <> 200%Z
  /\ (parseInt (nth 0 (split 45 (replaceFirst (lit "bytes=") [] r)) []) = NaN ->
      getOutput OUTPUT_DIR fs sessionId filename (Some r)
      = {| status := 500; headers := [];
           body := JsonError (ERR_OUT_OF_RANGE (lit "start") NaN) |}).
Proof.
  intros Hfs Hr. unfold getOutput. rewrite Hfs. cbv zeta.
  destruct r as [|c r]; [congruence|]. cbn [truthy]. split.
  - destruct (createReadStream _ _ _); cbn [status]; discriminate.
  - intros E. rewrite E. reflexivity.
Qed.

Lemma getOutput_range_never_full_witness :
  status (get1000 (Some (lit "bytes=-500"))) <> 200%Z
  /\ get1000 (Some (lit "bytes=-500"))
     = {| status := 500; headers := [];
          body := JsonError (ERR_OUT_OF_RANGE (lit "start") NaN) |}.
Proof.
  assert (Hfs : store1000 (join [lit "/tmp/output"; lit "s1";
                                 lit "trimmed_1.mp4"])
                = Some (repeat Byte.x00 1000)) by (vm_compute; reflexivity).
  assert (Hr : lit "bytes=-500" <> []) by (vm_compute; discriminate).
  destruct (getOutput_range_never_full (lit "/tmp/output") store1000
              (lit "s1") (lit "trimmed_1.mp4") Hfs Hr) as [A B].
  split; [exact A|]. apply B. vm_compute. reflexivity.
Defined.

(** C4 as stated fails: the malformed header [bytes=abc-def] is not
    answered like a request without a range header (status 200, the
    whole file) but with the error response, status 500. *)
Lemma getOutput_malformed_range_not_full :
  status (get1000 None) = 200%Z
  /\ status (get1000 (Some (lit "bytes=abc-def"))) = 500%Z
  /\ get1000 (Some (lit "bytes=abc-def")) <> get1000 None.
Proof.
  split; [vm_compute; reflexivity|]. split; [vm_compute; reflexivity|].
  intros E. apply (f_equal status) in E. vm_compute in E. discriminate.
Qed.

(** ** The batch loop *)

Section LoopFacts.

Context {num : Type} {JN : Process.JsNumber num}.
Variable World : Type.
Variable pathExists : World -> jsstring -> bool.
Variable ffprobe : World -> jsstring -> jsstring + num.
Variable ffmpeg : World -> Process.Command num -> World * option jsstring.

Variable v : Process.Variant.
Variables sid sessionDir base : jsstring.
Variables trimStartSeconds trimEndSeconds : num.

Local Abbreviation loop :=
  (Process.processLoop pathExists ffprobe ffmpeg v sid sessionDir base
     trimStartSeconds trimEndSeconds).

Local Abbreviation outputPath i file :=
  (join [sessionDir; Process.outputFileName base i file]).

Local Abbreviation entry i file :=
  {| Process.pfOriginalName := Process.originalName file;
     Process.fileName := Process.outputFileName base i file;
     Process.url := Process.urlPrefix v ++ sid ++ [47%N]
                    ++ Process.outputFileName base i file |}.

(** A file whose upload path is gone is skipped. *)
Lemma step_missing i file rest st :
  pathExists (Process.world st) (Process.uploadPath file) = false ->
  loop i (file :: rest) st = loop (S i) rest st.
Proof. intros H. cbn [Process.processLoop]. rewrite H. reflexivity. Qed.

(** A probe failure ends the loop with the exception. *)
Lemma step_probe_error i file rest st e :
  pathExists (Process.world st) (Process.uploadPath file) = true ->
  ffprobe (Process.world st) (Process.uploadPath file) = inl e ->
  loop i (file :: rest) st = (st, Process.Throw e).
Proof.
  intros H P. cbn [Process.processLoop]. rewrite H, P. reflexivity.
Qed.

(** A file the planning step rejects is skipped. *)
Lemma step_infeasible i file rest st D :
  pathExists (Process.world st) (Process.uploadPath file) = true ->
  ffprobe (Process.world st) (Process.uploadPath file) = inr D ->
  Process.plan v D trimStartSeconds trimEndSeconds = None ->
  loop i (file :: rest) st = loop (S i) rest st.
Proof.
  intros H P F. cbn [Process.processLoop]. rewrite H, P, F. reflexivity.
Qed.


(** A trimmed file is recorded under the name of its position. *)
Lemma step_success i file rest st D w world' :
  pathExists (Process.world st) (Process.uploadPath file) = true ->
  ffprobe (Process.world st) (Process.uploadPath file) = inr D ->
  Process.plan v D trimStartSeconds trimEndSeconds = Some w ->
  ffmpeg (Process.world st)
    (Process.command v (Process.uploadPath file) w (outputPath i file))
  = (world', None) ->
  loop i (file :: rest) st
  = loop (S i) rest
      {| Process.world := world';
         Process.processedFiles := Process.processedFiles st ++ [entry i file];
         Process.issued := Process.issued st ++
           [Process.command v (Process.uploadPath file) w (outputPath i file)] |}.
Proof.
  intros H P F R. cbn [Process.processLoop]. rewrite H, P, F, R. reflexivity.
Qed.


End LoopFacts.

(** ** C1 and C3: failures inside a batch *)

Section HandlerFacts.

Variable num : Type.
Context {JN : Process.JsNumber num}.
Variable World : Type.
Variable pathExists : World -> jsstring -> bool.
Variable ffprobe : World -> jsstring -> jsstring + num.
Variable ffmpeg : World -> Process.Command num -> World * option jsstring.
Variable OUTPUT_DIR : jsstring.

Local Abbreviation process :=
  (Process.process pathExists ffprobe ffmpeg OUTPUT_DIR).
Local Abbreviation processLoop :=
  (Process.processLoop pathExists ffprobe ffmpeg).
Local Abbreviation start w :=
  {| Process.world := w; Process.processedFiles := []; Process.issued := [] |}.

Lemma process_unfold v w (req : Process.Request num) sid :
  Process.sessionId req = Some sid -> sid <> [] ->
  Process.files req <> [] ->
  process v w req
  = match Process.run pathExists ffprobe ffmpeg OUTPUT_DIR v w req with
    | (st, Process.Normal) =>
        (Process.Json sid (Process.processedFiles st), Process.issued st)
    | (st, Process.Throw error) =>
        (Process.Failure 500 error, Process.issued st)
    end.
Proof.
  intros Hs Hn Hf. unfold Process.process, Process.missing.
  rewrite Hs. destruct sid as [|c sid]; [congruence|].
  destruct (Process.files req) as [|f fs] eqn:Ef; [congruence|].
  reflexivity.
Qed.


(** C3, as the code has it. In a batch [A, B, C] whose first file is
    trimmed: if probing B fails, the whole request fails with status 500
    and no list is returned; if B is skipped because its upload is gone
    or because it is too short to trim, and C is trimmed, the result is
    exactly [A', C'] in that order, A' named [{base}_1{ext}] and C'
    named [{base}_3{ext}]. *)
Theorem process_three_files v w w1 (req : Process.Request num) sid
    A B C dA winA :
  Process.sessionId req = Some sid -> sid <> [] ->
  Process.files req = [A; B; C] ->
  let sessionDir := join [OUTPUT_DIR; sid] in
  let base := Process.baseName (Process.outputBaseName req) in
  let S := Process.orZero (Process.trimStart req) in
  let E := Process.orZero (Process.trimEnd req) in
  pathExists w (Process.uploadPath A) = true ->
  ffprobe w (Process.uploadPath A) = inr dA ->
  Process.plan v dA S E = Some winA ->
  ffmpeg w (Process.command v (Process.uploadPath A) winA
              (join [sessionDir; Process.outputFileName base 0 A]))
    = (w1, None) ->
  (forall e,
     pathExists w1 (Process.uploadPath B) = true ->
     ffprobe w1 (Process.uploadPath B) = inl e ->
     fst (process v w req) = Process.Failure 500 e)
  /\ (forall dC winC w2,
     (pathExists w1 (Process.uploadPath B) = false
      \/ (pathExists w1 (Process.uploadPath B) = true
          /\ exists dB, ffprobe w1 (Process.uploadPath B) = inr dB
                        /\ Process.plan v dB S E = None)) ->
     pathExists w1 (Process.uploadPath C) = true ->
     ffprobe w1 (Process.uploadPath C) = inr dC ->
     Process.plan v dC S E = Some winC ->
     ffmpeg w1 (Process.command v (Process.uploadPath C) winC
                  (join [sessionDir; Process.outputFileName base 2 C]))
       = (w2, None) ->
     fst (process v w req)
     = Process.Json sid
         [ {| Process.pfOriginalName := Process.originalName A;
              Process.fileName := base ++ lit "_1" ++ Process.originalExt A;
              Process.url := Process.urlPrefix v ++ sid ++ lit "/"
                             ++ base ++ lit "_1" ++ Process.originalExt A |};
           {| Process.pfOriginalName := Process.originalName C;
              Process.fileName := base ++ lit "_3" ++ Process.originalExt C;
              Process.url := Process.urlPrefix v ++ sid ++ lit "/"
                             ++ base ++ lit "_3" ++ Process.originalExt C |} ]).
Proof.
  intros Hs Hn Hf sessionDir base S E HA PA FA RA.
  rewrite (process_unfold v w req Hs Hn) by (rewrite Hf; discriminate).
  unfold Process.run. rewrite Hs, Hf. fold sessionDir base S E.
  erewrite step_success; [| exact HA | exact PA | exact FA | exact RA].
  split.
  - intros e HB PB.
    erewrite step_probe_error; [reflexivity | exact HB | exact PB].
  - intros dC winC w2 HB HC PC FC RC.
    assert (Skip : forall st, Process.world st = w1 ->
      processLoop v sid sessionDir base S E 1 [B; C] st
      = processLoop v sid sessionDir base S E 2 [C] st).
    { intros st Ew. destruct HB as [HB | [HB [dB [PB FB]]]].
      - apply step_missing. rewrite Ew. exact HB.
      - apply step_infeasible with (D := dB); rewrite ?Ew; assumption. }
    rewrite Skip by reflexivity.
    erewrite step_success; [| exact HC | exact PC | exact FC | exact RC].
    reflexivity.
Qed.

End HandlerFacts.

Import Scenario.



Lemma process_three_files_witness :
  (* probing B fails *)
  fst (Process.process allExist (probe10Except (Process.uploadPath fileB))
         engineOk OUTPUT_DIR Process.ServerCopy tt (request None))
  = Process.Failure 500 (lit "ffprobe exited with code 1")
  (* the upload of B is gone *)
  /\ fst (Process.process (existExcept (Process.uploadPath fileB)) probe10
            engineOk OUTPUT_DIR Process.ServerCopy tt
            (request (Some (lit " clip "))))
     = Process.Json (lit "s1")
         [ {| Process.pfOriginalName := lit "a.mp4";
              Process.fileName := lit "clip_1.mp4";
              Process.url := lit "/output/s1/clip_1.mp4" |};
           {| Process.pfOriginalName := lit "c.webm";
              Process.fileName := lit "clip_3.webm";
              Process.url := lit "/output/s1/clip_3.webm" |} ]
  (* B is too short to trim *)
  /\ fst (Process.process allExist (probeShort (Process.uploadPath fileB))
            engineOk OUTPUT_DIR Process.ApiReencode tt (request None))
     = Process.Json (lit "s1")
         [ {| Process.pfOriginalName := lit "a.mp4";
              Process.fileName := lit "trimmed_1.mp4";
              Process.url := lit "/api/output/s1/trimmed_1.mp4" |};
           {| Process.pfOriginalName := lit "c.webm";
              Process.fileName := lit "trimmed_3.webm";
              Process.url := lit "/api/output/s1/trimmed_3.webm" |} ].
Proof.
  split; [|split].
  - refine (proj1 (@process_three_files float _ unit allExist
              (probe10Except (Process.uploadPath fileB)) engineOk OUTPUT_DIR
              Process.ServerCopy tt tt (request None) (lit "s1")
              fileA fileB fileC 10%float _ _ _ _ _ _ _ _) _ _ _).
    + reflexivity.
    + discriminate.
    + reflexivity.
    + reflexivity.
    + reflexivity.
    + vm_compute. reflexivity.
    + reflexivity.
    + reflexivity.
    + vm_compute. reflexivity.
  - etransitivity.
    + refine (proj2 (@process_three_files float _ unit
                (existExcept (Process.uploadPath fileB)) probe10 engineOk
                OUTPUT_DIR Process.ServerCopy tt tt
                (request (Some (lit " clip "))) (lit "s1")
                fileA fileB fileC 10%float _ _ _ _ _ _ _ _)
                10%float _ tt _ _ _ _ _).
      * reflexivity.
      * discriminate.
      * reflexivity.
      * vm_compute. reflexivity.
      * reflexivity.
      * vm_compute. reflexivity.
      * reflexivity.
      * left. vm_compute. reflexivity.
      * vm_compute. reflexivity.
      * reflexivity.
      * vm_compute. reflexivity.
      * reflexivity.
    + vm_compute. reflexivity.
  - etransitivity.
    + refine (proj2 (@process_three_files float _ unit allExist
                (probeShort (Process.uploadPath fileB)) engineOk
                OUTPUT_DIR Process.ApiReencode tt tt
                (request None) (lit "s1")
                fileA fileB fileC 10%float _ _ _ _ _ _ _ _)
                10%float _ tt _ _ _ _ _).
      * reflexivity.
      * discriminate.
      * reflexivity.
      * reflexivity.
      * reflexivity.
      * vm_compute. reflexivity.
      * reflexivity.
      * right. split; [reflexivity|]. exists (3 / 2)%float.
        split; vm_compute; reflexivity.
      * reflexivity.
      * reflexivity.
      * vm_compute. reflexivity.
      * reflexivity.
    + vm_compute. reflexivity.
Defined.

(** C3 as stated fails: with A and C ready to be trimmed and the probe
    of B failing, the answer is not the list [A', C'] but the error
    response with status 500. *)
Lemma process_probe_error_no_list :
  fst (Process.process allExist (probe10Except (Process.uploadPath fileB))
         engineOk OUTPUT_DIR Process.ApiReencode tt (request None))
  = Process.Failure 500 (lit "ffprobe exited with code 1")
  /\ fst (Process.process allExist (probe10Except (Process.uploadPath fileB))
            engineOk OUTPUT_DIR Process.ApiReencode tt (request None))
     <> Process.Json (lit "s1")
          [ {| Process.pfOriginalName := lit "a.mp4";
               Process.fileName := lit "trimmed_1.mp4";
               Process.url := lit "/api/output/s1/trimmed_1.mp4" |};
            {| Process.pfOriginalName := lit "c.webm";
               Process.fileName := lit "trimmed_3.webm";
               Process.url := lit "/api/output/s1/trimmed_3.webm" |} ].
Proof.
  split; [vm_compute; reflexivity|].
  intros E. vm_compute in E. discriminate.
Qed.

(** ** C2 and C6: the planning step *)

(** What each revision decides for a probed duration, in doubles. *)
Lemma plan_on_doubles (D S E : float) :
  Process.plan Process.ApiReencode D S E
  = (if PrimFloat.leb (PrimFloat.sub D E) S then None
     else Some {| Process.startTime := S;
                  Process.bound := Process.To (PrimFloat.sub D E) |})
  /\ forall v, v <> Process.ApiReencode ->
     Process.plan v D S E
     = (if PrimFloat.leb (PrimFloat.sub (PrimFloat.sub D S) E) PrimFloat.zero
        then None
        else Some {| Process.startTime := S;
                     Process.bound :=
                       Process.Duration
                         (PrimFloat.sub (PrimFloat.sub D S) E) |}).
Proof.
  split; [reflexivity|]. intros v Hv.
  destruct v; [congruence | reflexivity | reflexivity].
Qed.

Section PlanningStep.

Variable World : Type.
Variable pathExists : World -> jsstring -> bool.
Variable ffprobe : World -> jsstring -> jsstring + float.
Variable ffmpeg : World -> Process.Command float -> World * option jsstring.

Local Abbreviation loop := (Process.processLoop pathExists ffprobe ffmpeg).

(** After the planning step accepted a file, the engine is invoked once,
    on the planned window, whatever the engine then answers. *)
Lemma accepted_file_issued v sid sessionDir base S E i file st D w :
  pathExists (Process.world st) (Process.uploadPath file) = true ->
  ffprobe (Process.world st) (Process.uploadPath file) = inr D ->
  Process.plan v D S E = Some w ->
  Process.issued (fst (loop v sid sessionDir base S E i [file] st))
  = Process.issued st
    ++ [Process.command v (Process.uploadPath file) w
          (join [sessionDir; Process.outputFileName base i file])].
Proof.
  intros H P F. cbn [Process.processLoop]. rewrite H, P, F. cbn [negb].
  destruct (ffmpeg _ _) as [world' [e|]]; reflexivity.
Qed.

(** C2, as the code has it, in the double arithmetic of the handler,
    for a file that is present and probes with duration [D].  The
    api/index.js revision skips the file exactly when [D - E <= S], and
    otherwise invokes the engine on the window from [S] to the absolute
    end [D - E].  The stream-copy revisions skip it exactly when
    [(D - S) - E <= 0], and otherwise invoke the engine with the start
    [S] and the output duration [(D - S) - E]. *)
Theorem planning_step_on_doubles v sid sessionDir base (S E : float) i file
    st (D : float) :
  pathExists (Process.world st) (Process.uploadPath file) = true ->
  ffprobe (Process.world st) (Process.uploadPath file) = inr D ->
  let outputPath := join [sessionDir; Process.outputFileName base i file] in
  (v = Process.ApiReencode ->
     (PrimFloat.leb (PrimFloat.sub D E) S = true ->
        loop v sid sessionDir base S E i [file] st = (st, Process.Normal))
     /\ (PrimFloat.leb (PrimFloat.sub D E) S = false ->
        Process.issued (fst (loop v sid sessionDir base S E i [file] st))
        = Process.issued st
          ++ [{| Process.input := Process.uploadPath file;
                 Process.seek := Process.AfterInput;
                 Process.window :=
                   {| Process.startTime := S;
                      Process.bound := Process.To (PrimFloat.sub D E) |};
                 Process.codec := Process.Reencode;
                 Process.output := outputPath |}]))
  /\ (v <> Process.ApiReencode ->
     (PrimFloat.leb (PrimFloat.sub (PrimFloat.sub D S) E) PrimFloat.zero = true ->
        loop v sid sessionDir base S E i [file] st = (st, Process.Normal))
     /\ (PrimFloat.leb (PrimFloat.sub (PrimFloat.sub D S) E) PrimFloat.zero
         = false ->
        Process.issued (fst (loop v sid sessionDir base S E i [file] st))
        = Process.issued st
          ++ [{| Process.input := Process.uploadPath file;
                 Process.seek := Process.BeforeInput;
                 Process.window :=
                   {| Process.startTime := S;
                      Process.bound :=
                        Process.Duration
                          (PrimFloat.sub (PrimFloat.sub D S) E) |};
                 Process.codec := Process.StreamCopy;
                 Process.output := outputPath |}])).
Proof.
  intros H P outputPath.
  destruct (plan_on_doubles D S E) as [PA PB].
  split.
  - intros ->. split; intros T; rewrite T in PA.
    + erewrite step_infeasible; [reflexivity | exact H | exact P | exact PA].
    + erewrite accepted_file_issued; [reflexivity | exact H | exact P | exact PA].
  - intros Hv. specialize (PB v Hv). split; intros T; rewrite T in PB.
    + erewrite step_infeasible; [reflexivity | exact H | exact P | exact PB].
    + erewrite accepted_file_issued; [| exact H | exact P | exact PB].
      destruct v; [congruence | reflexivity | reflexivity].
Qed.

End PlanningStep.

Lemma planning_step_on_doubles_witness :
  (* api/index.js, ten seconds, one second cut at each end: trimmed *)
  Process.issued
    (fst (Process.processLoop allExist probe10 engineOk Process.ApiReencode
            (lit "s1") (lit "/tmp/output/s1") (lit "trimmed")
            1%float 1%float 0 [fileA] (idle tt)))
  = [{| Process.input := lit "/tmp/uploads/u1-a.mp4";
        Process.seek := Process.AfterInput;
        Process.window := {| Process.startTime := 1%float;
                             Process.bound := Process.To 9%float |};
        Process.codec := Process.Reencode;
        Process.output := lit "/tmp/output/s1/trimmed_1.mp4" |}]
  (* api/index.js, six and four seconds cut: skipped *)
  /\ Process.processLoop allExist probe10 engineOk Process.ApiReencode
       (lit "s1") (lit "/tmp/output/s1") (lit "trimmed")
       6%float 4%float 0 [fileA] (idle tt)
     = (idle tt, Process.Normal)
  (* server/index.js, one second cut at each end: trimmed *)
  /\ Process.issued
       (fst (Process.processLoop allExist probe10 engineOk Process.ServerCopy
               (lit "s1") (lit "/tmp/output/s1") (lit "trimmed")
               1%float 1%float 0 [fileA] (idle tt)))
     = [{| Process.input := lit "/tmp/uploads/u1-a.mp4";
           Process.seek := Process.BeforeInput;
           Process.window := {| Process.startTime := 1%float;
                                Process.bound := Process.Duration 8%float |};
           Process.codec := Process.StreamCopy;
           Process.output := lit "/tmp/output/s1/trimmed_1.mp4" |}]
  (* server/index.js, six and four seconds cut: skipped *)
  /\ Process.processLoop allExist probe10 engineOk Process.ServerCopy
       (lit "s1") (lit "/tmp/output/s1") (lit "trimmed")
       6%float 4%float 0 [fileA] (idle tt)
     = (idle tt, Process.Normal).
Proof.
  pose proof (fun v S E =>
    @planning_step_on_doubles unit allExist probe10 engineOk v
      (lit "s1") (lit "/tmp/output/s1") (lit "trimmed") S E 0 fileA
      (idle tt) 10%float eq_refl eq_refl) as T.
  split; [|split; [|split]].
  - etransitivity.
    + refine (proj2 (proj1 (T Process.ApiReencode 1%float 1%float) eq_refl) _).
      vm_compute. reflexivity.
    + vm_compute. reflexivity.
  - refine (proj1 (proj1 (T Process.ApiReencode 6%float 4%float) eq_refl) _).
    vm_compute. reflexivity.
  - etransitivity.
    + refine (proj2 (proj2 (T Process.ServerCopy 1%float 1%float)
                       ltac:(discriminate)) _).
      vm_compute. reflexivity.
    + vm_compute. reflexivity.
  - refine (proj1 (proj2 (T Process.ServerCopy 6%float 4%float)
                     ltac:(discriminate)) _).
    vm_compute. reflexivity.
Defined.

(** C2 as stated fails for the stream-copy revisions: a one second
    video with 0.3 s cut at the start and 0.7 s at the end is rejected,
    although [D - E] exceeds [S], both as the doubles compare and as
    their exact values compare. *)
Lemma planNewDuration_rejects_feasible :
  Process.plan Process.ServerCopy oneSecond cutStart cutEnd = None
  /\ Process.plan Process.ApiCopy oneSecond cutStart cutEnd = None
  /\ PrimFloat.leb (PrimFloat.sub oneSecond cutEnd) cutStart = false
  /\ (Process.exactly cutStart
      < Process.exactly oneSecond - Process.exactly cutEnd)%Q.
Proof.
  split; [vm_compute; reflexivity|]. split; [vm_compute; reflexivity|].
  split; [vm_compute; reflexivity|]. vm_compute. reflexivity.
Qed.

(** C6, read in exact arithmetic. With rational numbers in place of
    doubles the revision that tests the absolute end time and the
    revisions that test the derived duration accept exactly the same
    inputs, and on an accepted input both select the interval from [S]
    to [D - E]. *)
Theorem plans_agree_in_exact_arithmetic (D S E : Q) (v : Process.Variant) :
  v <> Process.ApiReencode ->
  (Process.plan Process.ApiReencode D S E = None
     <-> Process.plan v D S E = None)
  /\ (forall w1 w2,
      Process.plan Process.ApiReencode D S E = Some w1 ->
      Process.plan v D S E = Some w2 ->
      Process.startTime w1 = S /\ Process.startTime w2 = S
      /\ (Process.windowEnd w1 == D - E)%Q
      /\ (Process.windowEnd w2 == D - E)%Q).
Proof.
  intros Hv.
  assert (Ev : Process.plan v D S E = Process.planNewDuration D S E)
    by (destruct v; [congruence | reflexivity | reflexivity]).
  rewrite Ev. cbn [Process.plan].
  unfold Process.planEndTime, Process.planNewDuration.
  cbn [Process.nleb Process.nsub Process.nzero Process.Exact].
  destruct (Qle_bool (D - E) S) eqn:A;
    destruct (Qle_bool (D - S - E) 0) eqn:B.
  - split; [tauto|]. intros w1 w2 H; discriminate.
  - exfalso. apply Qle_bool_iff in A.
    assert (C : (D - S - E <= 0)%Q) by lra.
    apply Qle_bool_iff in C. congruence.
  - exfalso. apply Qle_bool_iff in B.
    assert (C : (D - E <= S)%Q) by lra.
    apply Qle_bool_iff in C. congruence.
  - split; [split; discriminate|].
    intros w1 w2 H1 H2. inversion H1; inversion H2; subst.
    unfold Process.windowEnd. cbn [Process.startTime Process.bound
      Process.nadd Process.Exact].
    repeat split; try reflexivity. ring.
Qed.

Lemma plans_agree_in_exact_arithmetic_witness :
  Process.plan Process.ApiReencode 10%Q 1%Q 1%Q
  = Some {| Process.startTime := 1%Q; Process.bound := Process.To (10 - 1)%Q |}
  /\ (Process.windowEnd
        {| Process.startTime := 1%Q;
           Process.bound := Process.Duration (10 - 1 - 1)%Q |} == 10 - 1)%Q.
Proof.
  split; [reflexivity|].
  destruct (@plans_agree_in_exact_arithmetic 10%Q 1%Q 1%Q Process.ServerCopy
              ltac:(discriminate)) as [_ H].
  destruct (H {| Process.startTime := 1%Q;
                 Process.bound := Process.To (10 - 1)%Q |}
              {| Process.startTime := 1%Q;
                 Process.bound := Process.Duration (10 - 1 - 1)%Q |}
              eq_refl eq_refl) as [_ [_ [_ W]]].
  exact W.
Defined.

(** C6 as stated fails in the arithmetic the handlers run in: on a one
    second video with 0.3 s cut at the start and 0.7 s at the end the
    end-time revision trims and the duration revisions skip the file. *)
Lemma plans_disagree_on_doubles :
  Process.plan Process.ApiReencode oneSecond cutStart cutEnd
  = Some {| Process.startTime := cutStart;
            Process.bound := Process.To (PrimFloat.sub oneSecond cutEnd) |}
  /\ Process.plan Process.ApiCopy oneSecond cutStart cutEnd = None
  /\ Process.plan Process.ServerCopy oneSecond cutStart cutEnd = None.
Proof. repeat split; vm_compute; reflexivity. Qed.

(** ** [path.normalize] and [path.join] on absolute paths *)

Lemma eqb_str_eq (a b : jsstring) : eqb_str a b = true <-> a = b.
Proof.
  unfold eqb_str. destruct (jsstring_eq_dec a b); split; congruence.
Qed.

Lemma eqb_str_refl (a : jsstring) : eqb_str a a = true.
Proof. apply eqb_str_eq. reflexivity. Qed.

Lemma isClean_spec (s : jsstring) :
  isClean s = true <-> s <> [] /\ s <> [46%N] /\ s <> dotdot.
Proof.
  unfold isClean. rewrite !andb_true_iff, !negb_true_iff.
  split.
  - intros [[T A] B]. repeat split; intros ->;
      try discriminate; rewrite eqb_str_refl in *; discriminate.
  - intros [A [B C]]. repeat split.
    + destruct s; [congruence|reflexivity].
    + destruct (eqb_str s [46%N]) eqn:E; [|reflexivity].
      apply eqb_str_eq in E. congruence.
    + destruct (eqb_str s dotdot) eqn:E; [|reflexivity].
      apply eqb_str_eq in E. congruence.
Qed.

(** On components that are proper or to be dropped, [resolve] keeps the
    proper ones in order. *)
Lemma resolve_keeps_clean (a : bool) (segs : list jsstring) :
  forall res,
  Forall (fun s => isClean s = true \/ s = [] \/ s = [46%N]) segs ->
  resolve a segs res = rev res ++ filter isClean segs.
Proof.
  induction segs as [|s r IH]; intros res F.
  - cbn [resolve filter]. rewrite app_nil_r. reflexivity.
  - inversion F as [|? ? Hs Hr]; subst. cbn [resolve filter].
    destruct Hs as [C | [-> | ->]].
    + rewrite C. apply isClean_spec in C. destruct C as [C1 [C2 C3]].
      destruct s as [|c s']; [congruence|]. cbn [truthy negb orb].
      destruct (eqb_str (c :: s') [46%N]) eqn:E1;
        [apply eqb_str_eq in E1; congruence|].
      destruct (eqb_str (c :: s') dotdot) eqn:E2;
        [apply eqb_str_eq in E2; congruence|].
      rewrite IH by assumption. cbn [rev]. rewrite <- app_assoc. reflexivity.
    + cbn. apply IH; assumption.
    + cbn. apply IH; assumption.
Qed.

(** Below the root, [resolve] yields proper components only. *)
Lemma resolve_false_clean (segs : list jsstring) :
  forall res,
  Forall (fun s => isClean s = true) res ->
  Forall (fun s => isClean s = true) (resolve false segs res).
Proof.
  induction segs as [|s r IH]; intros res F; cbn [resolve].
  - apply Forall_rev. exact F.
  - destruct (negb (truthy s) || eqb_str s [46%N]) eqn:Skip; [apply IH; exact F|].
    destruct (eqb_str s dotdot) eqn:Up.
    + destruct res as [|top res']; [apply IH; constructor|].
      inversion F; subst.
      destruct (eqb_str top dotdot); apply IH; assumption.
    + apply IH. constructor; [|exact F].
      apply orb_false_iff in Skip. destruct Skip as [T D].
      unfold isClean. rewrite D, Up.
      apply negb_false_iff in T. rewrite T. reflexivity.
Qed.

Lemma resolve_false_incl (segs : list jsstring) :
  forall res x, In x (resolve false segs res) -> In x segs \/ In x res.
Proof.
  induction segs as [|s r IH]; intros res x H; cbn [resolve] in H.
  - right. apply in_rev. exact H.
  - destruct (negb (truthy s) || eqb_str s [46%N]).
    { destruct (IH _ _ H); [left; right; assumption | right; assumption]. }
    destruct (eqb_str s dotdot).
    + destruct res as [|top res'].
      * destruct (IH _ _ H) as [I|I]; [left; right; assumption | destruct I].
      * destruct (eqb_str top dotdot);
          destruct (IH _ _ H) as [I|I];
          try (left; right; assumption); right; try assumption.
        right. assumption.
    + destruct (IH _ _ H) as [I|[I|I]].
      * left. right. assumption.
      * left. left. assumption.
      * right. assumption.
Qed.

Lemma split_no_sep_inside (sep : N) (s : jsstring) :
  forall x, In x (split sep s) -> ~ In sep x.
Proof.
  induction s as [|c r IH]; intros x H; cbn [split] in H.
  - destruct H as [<-|[]]. intros [].
  - destruct (N.eqb_spec c sep) as [->|NE].
    + destruct H as [<-|H]; [intros []|apply IH; exact H].
    + destruct (split sep r) as [|y ys] eqn:E.
      * destruct H as [<-|[]]. intros [A|[]]. congruence.
      * destruct H as [<-|H].
        -- intros [A|A]; [congruence|]. apply (IH y); [left; reflexivity|exact A].
        -- apply IH. right. exact H.
Qed.

Lemma joinSegs_cons (s : jsstring) (r : list jsstring) :
  r <> [] -> joinSegs (s :: r) = s ++ 47%N :: joinSegs r.
Proof. destruct r; [congruence|reflexivity]. Qed.

Lemma joinSegs_snoc (segs : list jsstring) (s : jsstring) :
  segs <> [] -> joinSegs (segs ++ [s]) = joinSegs segs ++ 47%N :: s.
Proof.
  induction segs as [|x r IH]; intros H; [congruence|].
  destruct r as [|y r'].
  - reflexivity.
  - change ((x :: y :: r') ++ [s]) with (x :: ((y :: r') ++ [s])).
    rewrite joinSegs_cons by (destruct r'; discriminate).
    rewrite IH by discriminate.
    rewrite (joinSegs_cons x (r := y :: r')) by discriminate.
    rewrite <- app_assoc. reflexivity.
Qed.

Lemma split_joinSegs (segs : list jsstring) :
  segs <> [] -> Forall (fun s => ~ In 47%N s) segs ->
  split 47 (joinSegs segs) = segs.
Proof.
  induction segs as [|s r IH]; intros NE F; [congruence|].
  inversion F as [|? ? Hs Hr]; subst.
  destruct r as [|t r'].
  - cbn [joinSegs]. apply split_no_sep. exact Hs.
  - rewrite joinSegs_cons by discriminate.
    rewrite split_app_sep by exact Hs.
    rewrite IH by (discriminate || assumption). reflexivity.
Qed.

Lemma joinSegs_clean_nonempty (segs : list jsstring) :
  segs <> [] -> Forall (fun s => isClean s = true) segs ->
  joinSegs segs <> [].
Proof.
  intros NE F. destruct segs as [|s r]; [congruence|].
  inversion F as [|? ? Hs Hr]; subst.
  apply isClean_spec in Hs. destruct Hs as [Hs _].
  destruct r; cbn [joinSegs]; [exact Hs|].
  destruct s; [congruence|discriminate].
Qed.

Lemma segOk_drop (M : list jsstring) :
  Forall segOk M ->
  Forall (fun s => isClean s = true \/ s = [] \/ s = [46%N]) M
  /\ Forall (fun s => ~ In 47%N s) M.
Proof.
  induction 1 as [|s r [A B] _ [IH1 IH2]]; split; constructor;
    try assumption; tauto.
Qed.

Lemma filter_clean_segOk (M : list jsstring) :
  Forall segOk M -> Forall segOk (filter isClean M).
Proof.
  induction 1 as [|s r H _ IH]; cbn [filter]; [constructor|].
  destruct (isClean s); [constructor; assumption | assumption].
Qed.

Lemma filter_clean_idem (M : list jsstring) :
  filter isClean (filter isClean M) = filter isClean M.
Proof.
  induction M as [|s r IH]; cbn [filter]; [reflexivity|].
  destruct (isClean s) eqn:E; cbn [filter]; rewrite ?E, IH; reflexivity.
Qed.

Lemma filter_clean_all (M : list jsstring) :
  Forall (fun s => isClean s = true) M -> filter isClean M = M.
Proof.
  induction 1 as [|s r H _ IH]; cbn [filter]; [reflexivity|].
  rewrite H, IH. reflexivity.
Qed.

Lemma rooted_absolute (M : list jsstring) :
  M <> [] -> isAbsolute (joinSegs ([] :: M)) = true.
Proof. intros NE. rewrite joinSegs_cons by exact NE. reflexivity. Qed.

(** The components of [/m1/m2/...]. *)
Lemma components_rooted (M : list jsstring) :
  M <> [] -> Forall segOk M ->
  components (joinSegs ([] :: M)) = filter isClean M.
Proof.
  intros NE F. destruct (segOk_drop F) as [F1 F2].
  unfold components. rewrite rooted_absolute by exact NE. cbn [negb].
  rewrite split_joinSegs;
    [| discriminate | constructor; [intros [] | exact F2]].
  rewrite resolve_keeps_clean
    by (constructor; [right; left; reflexivity | exact F1]).
  reflexivity.
Qed.

Lemma endsWithSlash_app (a name : jsstring) :
  name <> [] -> ~ In 47%N name -> endsWithSlash (a ++ name) = false.
Proof.
  intros NE NS. unfold endsWithSlash. rewrite rev_app_distr.
  destruct (rev name) as [|c r] eqn:E.
  - apply (f_equal (@rev N)) in E. rewrite rev_involutive in E.
    cbn in E. congruence.
  - cbn [app]. unfold isSlash. destruct (N.eqb_spec c 47) as [->|]; [|reflexivity].
    exfalso. apply NS. apply in_rev. rewrite E. left. reflexivity.
Qed.

(** What [normalize] makes of an absolute path: [/], or the proper
    components of the path behind a [/], with a [/] at the end when the
    path had one. *)
Lemma normalize_absolute_form (q : jsstring) :
  isAbsolute q = true ->
  exists M, M <> [] /\ Forall segOk M
            /\ normalize q = joinSegs ([] :: M)
            /\ filter isClean M = components q.
Proof.
  intros A. unfold normalize, components. rewrite A. cbn [negb].
  destruct q as [|c q']; [discriminate|]. cbn [truthy negb].
  set (L := resolve false (split 47 (c :: q')) []).
  assert (CL : Forall (fun s => isClean s = true) L)
    by (apply resolve_false_clean; constructor).
  assert (NS : Forall (fun s => ~ In 47%N s) L).
  { apply Forall_forall. intros x Hx.
    destruct (resolve_false_incl _ _ _ Hx) as [I|[]].
    exact (split_no_sep_inside _ _ _ I). }
  assert (OK : Forall segOk L).
  { apply Forall_forall. intros x Hx. rewrite Forall_forall in CL, NS.
    split; [apply NS; exact Hx | left; apply CL; exact Hx]. }
  destruct (joinSegs L) as [|d path] eqn:J.
  - cbn [truthy negb].
    assert (EL : L = []).
    { destruct L as [|x r]; [reflexivity|]. exfalso.
      apply (joinSegs_clean_nonempty (segs := x :: r)); [discriminate|exact CL|exact J]. }
    exists [[]]. rewrite EL. repeat split; try discriminate.
    constructor; [|constructor]. split; [intros []|right; reflexivity].
  - cbn [truthy negb].
    assert (NE : L <> []) by (intros E; rewrite E in J; discriminate).
    destruct (endsWithSlash (c :: q')).
    + exists (L ++ [[]]). split; [destruct L; discriminate|]. split; [|split].
      * apply Forall_app. split; [exact OK|].
        constructor; [|constructor]. split; [intros []|right; reflexivity].
      * rewrite joinSegs_cons by (destruct L; discriminate).
        rewrite joinSegs_snoc by exact NE. rewrite J. reflexivity.
      * rewrite filter_app. cbn [filter]. rewrite app_nil_r.
        apply filter_clean_all. exact CL.
    + exists L. split; [exact NE|]. split; [exact OK|]. split.
      * rewrite joinSegs_cons by exact NE. rewrite J. reflexivity.
      * apply filter_clean_all. exact CL.
Qed.

(** [normalize] of [/m1/.../name] with a proper last component. *)
Lemma normalize_rooted (M : list jsstring) (name : jsstring) :
  Forall segOk M -> ~ In 47%N name -> isClean name = true ->
  normalize (joinSegs ([] :: M ++ [name]))
  = joinSegs ([] :: filter isClean M ++ [name]).
Proof.
  intros F NS C.
  assert (F' : Forall segOk (M ++ [name])).
  { apply Forall_app. split; [exact F|]. constructor; [|constructor].
    split; [exact NS | left; exact C]. }
  destruct (segOk_drop F') as [F1 F2].
  assert (NE : M ++ [name] <> []) by (destruct M; discriminate).
  assert (Nn : name <> []) by (apply isClean_spec in C; tauto).
  unfold normalize.
  rewrite rooted_absolute by exact NE.
  rewrite joinSegs_cons by exact NE. cbn [app truthy negb].
  assert (T : endsWithSlash (47%N :: joinSegs (M ++ [name])) = false).
  { destruct M as [|m r].
    - cbn [app joinSegs]. apply (endsWithSlash_app [47%N]); assumption.
    - rewrite joinSegs_snoc by discriminate.
      rewrite app_comm_cons.
      change (47%N :: name) with ([47%N] ++ name). rewrite app_assoc.
      apply endsWithSlash_app; assumption. }
  rewrite T.
  change (47%N :: joinSegs (M ++ [name]))
    with ([] ++ 47%N :: joinSegs (M ++ [name])).
  rewrite <- joinSegs_cons by exact NE.
  rewrite split_joinSegs;
    [| discriminate | constructor; [intros [] | exact F2]].
  rewrite resolve_keeps_clean
    by (constructor; [right; left; reflexivity | exact F1]).
  cbn [rev app filter]. change (isClean []) with false. cbv iota.
  rewrite filter_app. cbn [filter]. rewrite C.
  assert (NE2 : filter isClean M ++ [name] <> [])
    by (destruct (filter isClean M); discriminate).
  assert (J : joinSegs (filter isClean M ++ [name]) <> []).
  { apply joinSegs_clean_nonempty; [exact NE2|].
    apply Forall_app. split.
    - apply Forall_forall. intros x Hx. apply filter_In in Hx. tauto.
    - constructor; [exact C|constructor]. }
  destruct (joinSegs (filter isClean M ++ [name])) as [|d path] eqn:E;
    [congruence|].
  cbn [truthy negb]. rewrite joinSegs_cons by exact NE2. rewrite E.
  reflexivity.
Qed.

(** Joining a proper, separator-free name to a normalized absolute
    directory adds exactly that component. *)
Lemma join_adds_component (q name : jsstring) :
  isAbsolute q = true -> ~ In 47%N name -> isClean name = true ->
  components (join [normalize q; name]) = components (normalize q) ++ [name]
  /\ isAbsolute (normalize q) = true
  /\ isAbsolute (join [normalize q; name]) = true.
Proof.
  intros A NS C.
  destruct (normalize_absolute_form q A) as [M [NE [F [EN EC]]]].
  assert (Nn : name <> []) by (apply isClean_spec in C; tauto).
  assert (J : join [normalize q; name]
              = joinSegs ([] :: filter isClean M ++ [name])).
  { unfold join. rewrite EN.
    assert (T1 : truthy (joinSegs ([] :: M)) = true).
    { rewrite joinSegs_cons by exact NE. reflexivity. }
    assert (T2 : truthy name = true) by (destruct name; [congruence|reflexivity]).
    cbn [filter]. rewrite T1, T2.
    change (joinSegs [joinSegs ([] :: M); name])
      with (joinSegs ([] :: M) ++ 47%N :: name).
    rewrite <- (joinSegs_snoc (segs := [] :: M)) by discriminate.
    cbn [app]. apply normalize_rooted; assumption. }
  assert (F2 : Forall segOk (filter isClean M ++ [name])).
  { apply Forall_app. split; [apply filter_clean_segOk; exact F|].
    constructor; [|constructor]. split; [exact NS | left; exact C]. }
  assert (NE2 : filter isClean M ++ [name] <> [])
    by (destruct (filter isClean M); discriminate).
  split; [|split].
  - rewrite J, EN. rewrite !components_rooted by assumption.
    rewrite filter_app, filter_clean_idem. cbn [filter]. rewrite C.
    reflexivity.
  - rewrite EN. apply rooted_absolute. exact NE.
  - rewrite J. apply rooted_absolute. exact NE2.
Qed.

Lemma join_two (a b : jsstring) :
  a <> [] -> b <> [] -> join [a; b] = normalize (a ++ 47%N :: b).
Proof.
  intros A B. unfold join. cbn [filter].
  destruct a; [congruence|]. destruct b; [congruence|]. reflexivity.
Qed.

Lemma isPrefix_app (a b : list jsstring) : isPrefix a (a ++ b) = true.
Proof.
  induction a as [|x a IH]; cbn [isPrefix app]; [reflexivity|].
  rewrite eqb_str_refl, IH. reflexivity.
Qed.

(** ** C8: where the outputs are written *)

(** An output file name built from a base name without separators is a
    proper path component free of separators. *)
Lemma outputFileName_component (base : jsstring) (i : nat)
    (file : Process.FileRef) :
  ~ In 47%N base ->
  ~ In 47%N (Process.outputFileName base i file)
  /\ isClean (Process.outputFileName base i file) = true.
Proof.
  intros NB. unfold Process.outputFileName. split.
  - intros H. apply in_app_or in H. destruct H as [H|H]; [auto|].
    apply in_app_or in H. destruct H as [H|H];
      [destruct H as [H|[]]; discriminate|].
    apply in_app_or in H. destruct H as [H|H].
    + revert H. apply digit_not_in; [reflexivity|apply dec_digits].
    + unfold Process.originalExt, orElse in H.
      destruct (extname (Process.originalName file)) as [|c e] eqn:E.
      * cbn in H. repeat (destruct H as [H|H]; [discriminate|]). exact H.
      * cbn [truthy] in H. rewrite <- E in H. exact (extname_no_slash _ H).
  - assert (U : In 95%N (base ++ [95%N] ++ dec (N.of_nat i + 1)
                         ++ Process.originalExt file)).
    { apply in_or_app. right. left. reflexivity. }
    apply isClean_spec. repeat split; intros E; rewrite E in U; cbn in U;
      repeat (destruct U as [U|U]; [discriminate|]); exact U.
Qed.

Section OutputPlacement.

Variable num : Type.
Context {JN : Process.JsNumber num}.
Variable World : Type.
Variable pathExists : World -> jsstring -> bool.
Variable ffprobe : World -> jsstring -> jsstring + num.
Variable ffmpeg : World -> Process.Command num -> World * option jsstring.
Variable OUTPUT_DIR : jsstring.

(** Every engine invocation of the loop writes to the path joined from
    the session directory and the output name of a file of the batch. *)
Lemma loop_issued v sid sessionDir base S E files :
  forall i st st' c,
  Process.processLoop pathExists ffprobe ffmpeg v sid sessionDir base S E
    i files st = (st', c) ->
  forall cmd, In cmd (Process.issued st') ->
  In cmd (Process.issued st)
  \/ exists j file, In file files
       /\ Process.output cmd
          = join [sessionDir; Process.outputFileName base j file].
Proof.
  induction files as [|f rest IH]; intros i st st' c H cmd Hc.
  - cbn [Process.processLoop] in H. inversion H; subst. left. exact Hc.
  - assert (Later : forall st0,
      Process.processLoop pathExists ffprobe ffmpeg v sid sessionDir base S E
        (Datatypes.S i) rest st0 = (st', c) ->
      In cmd (Process.issued st0)
      \/ exists j file, In file (f :: rest)
           /\ Process.output cmd
              = join [sessionDir; Process.outputFileName base j file]).
    { intros st0 H0. destruct (IH _ _ _ _ H0 cmd Hc) as [I|[j [file [I O]]]];
        [left; exact I | right; exists j, file; split; [right; exact I|exact O]]. }
    cbn [Process.processLoop] in H.
    destruct (pathExists _ _); cbn [negb] in H; [|apply Later; exact H].
    destruct (ffprobe _ _) as [e|D].
    { inversion H; subst. left. exact Hc. }
    destruct (Process.plan _ _ _ _) as [win|]; [|apply Later; exact H].
    destruct (ffmpeg _ _) as [world' [e|]].
    + inversion H; subst. cbn [Process.issued] in Hc.
      apply in_app_or in Hc. destruct Hc as [I|[<-|[]]]; [left; exact I|].
      right. exists i, f. split; [left; reflexivity|reflexivity].
    + destruct (Later _ H) as [I|R]; [|right; exact R].
      cbn [Process.issued] in I.
      apply in_app_or in I. destruct I as [I|[<-|[]]]; [left; exact I|].
      right. exists i, f. split; [left; reflexivity|reflexivity].
Qed.

(** C8, as the code has it. When the output base name holds no path
    separator (and the output root is an absolute path), every file the
    batch has the engine write lies directly inside the session
    directory [join(OUTPUT_DIR, sessionId)]: its path is the session
    directory followed by the one component [{base}_{i+1}{ext}]. *)
Theorem outputs_inside_session_directory v w (req : Process.Request num) sid :
  Process.sessionId req = Some sid -> sid <> [] ->
  isAbsolute OUTPUT_DIR = true ->
  ~ In 47%N (Process.baseName (Process.outputBaseName req)) ->
  forall cmd,
  In cmd (snd (Process.process pathExists ffprobe ffmpeg OUTPUT_DIR v w req)) ->
  inside (join [OUTPUT_DIR; sid]) (Process.output cmd) = true
  /\ exists i file,
       In file (Process.files req)
       /\ components (Process.output cmd)
          = components (join [OUTPUT_DIR; sid])
            ++ [Process.outputFileName
                  (Process.baseName (Process.outputBaseName req)) i file].
Proof.
  intros Hs Hn Habs Hbase cmd Hcmd.
  assert (Hout : OUTPUT_DIR <> []) by (intros E; rewrite E in Habs; discriminate).
  unfold Process.process in Hcmd.
  destruct (Process.missing _ || _); [destruct Hcmd|].
  destruct (Process.run pathExists ffprobe ffmpeg OUTPUT_DIR v w req)
    as [st c] eqn:R.
  assert (I : In cmd (Process.issued st)) by (destruct c; exact Hcmd).
  unfold Process.run in R. rewrite Hs in R.
  destruct (loop_issued _ _ _ _ _ _ _ _ _ R cmd I) as [[]|[j [file [F O]]]].
  rewrite O, (@join_two OUTPUT_DIR sid Hout Hn).
  assert (Aq : isAbsolute (OUTPUT_DIR ++ 47%N :: sid) = true)
    by (destruct OUTPUT_DIR; [congruence|exact Habs]).
  destruct (@outputFileName_component
              (Process.baseName (Process.outputBaseName req)) j file Hbase)
    as [NS C].
  destruct (@join_adds_component (OUTPUT_DIR ++ 47%N :: sid) _ Aq NS C)
    as [EC [A1 A2]].
  split.
  - unfold inside. rewrite A1, A2, EC, isPrefix_app, length_app.
    cbn [andb List.length]. apply Nat.ltb_lt. lia.
  - exists j, file. split; [exact F|exact EC].
Qed.

End OutputPlacement.

Lemma outputs_inside_session_directory_witness :
  Forall (fun cmd => inside (lit "/tmp/output/s1") (Process.output cmd) = true)
    (snd (Process.process allExist probe10 engineOk OUTPUT_DIR
            Process.ApiReencode tt (request (Some (lit "holiday clip"))))).
Proof.
  apply Forall_forall. intros cmd H.
  refine (proj1 (@outputs_inside_session_directory float _ unit allExist
                   probe10 engineOk OUTPUT_DIR Process.ApiReencode tt
                   (request (Some (lit "holiday clip"))) (lit "s1")
                   _ _ _ _ cmd H)).
  - reflexivity.
  - discriminate.
  - reflexivity.
  - vm_compute. intros I.
    repeat (destruct I as [I|I]; [discriminate I|]). exact I.
Defined.

(** C8 as stated fails: with the base name [../escaped] the three
    outputs of session [s1] are written next to the session directory,
    not inside it. *)
Lemma base_name_escapes_session_directory :
  List.map (@Process.output float)
    (snd (Process.process allExist probe10 engineOk OUTPUT_DIR
            Process.ApiReencode tt (request (Some (lit "../escaped")))))
  = [ lit "/tmp/output/escaped_1.mp4";
      lit "/tmp/output/escaped_2.mov";
      lit "/tmp/output/escaped_3.webm" ]
  /\ join [OUTPUT_DIR; lit "s1"] = lit "/tmp/output/s1"
  /\ inside (lit "/tmp/output/s1") (lit "/tmp/output/escaped_1.mp4") = false.
Proof.
  split; [vm_compute; reflexivity|]. split; vm_compute; reflexivity.
Qed.

(* ===================================================================== *)
(** * Part III: further properties of the handlers and the client        *)
(* ===================================================================== *)

(** ** More on [path.join] *)

Lemma split_app (sep : N) (a b : jsstring) :
  split sep (a ++ sep :: b) = split sep a ++ split sep b.
Proof.
  induction a as [|c r IH]; cbn [app split].
  - rewrite N.eqb_refl. reflexivity.
  - destruct (c =? sep)%N.
    + rewrite IH. reflexivity.
    + rewrite IH. pose proof (split_nonempty sep r) as NE.
      destruct (split sep r); [congruence|reflexivity].
Qed.

Lemma resolve_app (a : bool) (xs ys : list jsstring) :
  forall res,
  resolve a (xs ++ ys) res = resolve a ys (rev (resolve a xs res)).
Proof.
  induction xs as [|s r IH]; intros res; cbn [app resolve].
  - rewrite rev_involutive. reflexivity.
  - destruct (negb (truthy s) || eqb_str s [46%N]); [apply IH|].
    destruct (eqb_str s dotdot); [|apply IH].
    destruct res as [|top res']; [apply IH|].
    destruct (eqb_str top dotdot); apply IH.
Qed.

(** Normalizing an absolute path does not change its components. *)
Lemma components_normalize (q : jsstring) :
  isAbsolute q = true -> components (normalize q) = components q.
Proof.
  intros A. destruct (normalize_absolute_form q A) as [M [NE [F [EN EC]]]].
  rewrite EN, components_rooted by assumption. exact EC.
Qed.

Lemma normalize_absolute (q : jsstring) :
  isAbsolute q = true -> isAbsolute (normalize q) = true.
Proof.
  intros A. destruct (normalize_absolute_form q A) as [M [NE [F [EN EC]]]].
  rewrite EN. apply rooted_absolute. exact NE.
Qed.

Lemma endsWithSlash_tail (a f : jsstring) :
  f <> [] -> endsWithSlash (a ++ f) = endsWithSlash f.
Proof.
  intros NE. unfold endsWithSlash. rewrite rev_app_distr.
  destruct (rev f) as [|c r] eqn:E; [|reflexivity].
  apply (f_equal (@rev N)) in E. rewrite rev_involutive in E.
  cbn in E. congruence.
Qed.

(** [normalize] of an absolute path is fixed by its components and by
    whether it ends with a separator. *)
Lemma normalize_by_components (x y : jsstring) :
  isAbsolute x = true -> isAbsolute y = true ->
  components x = components y -> endsWithSlash x = endsWithSlash y ->
  normalize x = normalize y.
Proof.
  intros Ax Ay C T. unfold components in C. rewrite Ax, Ay in C.
  cbn [negb] in C. unfold normalize. rewrite Ax, Ay, T. cbn [negb].
  rewrite C.
  destruct x; [discriminate|]. destruct y; [discriminate|]. reflexivity.
Qed.

(** Appending a path to a directory, before or after the directory is
    normalized, gives the same path. *)
Lemma normalize_then_append (q f : jsstring) :
  isAbsolute q = true -> f <> [] ->
  normalize (normalize q ++ 47%N :: f) = normalize (q ++ 47%N :: f).
Proof.
  intros A NE.
  pose proof (normalize_absolute q A) as An.
  assert (A1 : isAbsolute (normalize q ++ 47%N :: f) = true)
    by (destruct (normalize q); [discriminate|exact An]).
  assert (A2 : isAbsolute (q ++ 47%N :: f) = true)
    by (destruct q; [discriminate|exact A]).
  apply normalize_by_components; try assumption.
  - unfold components. rewrite A1, A2. cbn [negb].
    rewrite !split_app, !resolve_app.
    pose proof (components_normalize q A) as C. unfold components in C.
    rewrite An, A in C. cbn [negb] in C. rewrite C. reflexivity.
  - change (47%N :: f) with ([47%N] ++ f). rewrite !app_assoc.
    rewrite !endsWithSlash_tail by exact NE. reflexivity.
Qed.

(** [path.join(path.join(a, b), c) = path.join(a, b, c)] below an
    absolute [a]. *)
Lemma join_join (a b c : jsstring) :
  isAbsolute a = true -> b <> [] -> c <> [] ->
  join [join [a; b]; c] = join [a; b; c].
Proof.
  intros A B C.
  assert (NA : a <> []) by (intros E; rewrite E in A; discriminate).
  rewrite (@join_two a b NA B).
  assert (Aq : isAbsolute (a ++ 47%N :: b) = true)
    by (destruct a; [congruence|exact A]).
  assert (NN : normalize (a ++ 47%N :: b) <> []).
  { pose proof (normalize_absolute _ Aq) as H.
    intros E. rewrite E in H. discriminate. }
  rewrite (@join_two _ c NN C).
  rewrite normalize_then_append by assumption.
  unfold join. cbn [filter].
  destruct a; [congruence|]. destruct b; [congruence|].
  destruct c; [congruence|]. cbn [truthy joinSegs].
  rewrite <- app_assoc. reflexivity.
Qed.

(** ** The batch loop in general *)

Lemma Subseq_nil_l {A : Type} (l : list A) : Subseq [] l.
Proof. induction l; constructor; assumption. Qed.

Lemma Subseq_length {A : Type} (l1 l2 : list A) :
  Subseq l1 l2 -> List.length l1 <= List.length l2.
Proof. induction 1; cbn [List.length]; lia. Qed.

Lemma Subseq_refl {A : Type} (l : list A) : Subseq l l.
Proof. induction l; constructor; assumption. Qed.

Lemma indexed_cons (i : nat) (f : Process.FileRef) rest :
  indexed i (f :: rest) = (i, f) :: indexed (S i) rest.
Proof. reflexivity. Qed.

Section BatchFacts.

Variable num : Type.
Context {JN : Process.JsNumber num}.
Variable World : Type.
Variable pathExists : World -> jsstring -> bool.
Variable ffprobe : World -> jsstring -> jsstring + num.
Variable ffmpeg : World -> Process.Command num -> World * option jsstring.
Variable OUTPUT_DIR : jsstring.

Variable v : Process.Variant.
Variables sid sessionDir base : jsstring.
Variables S E : num.

Local Abbreviation loop :=
  (Process.processLoop pathExists ffprobe ffmpeg v sid sessionDir base S E).

(** What the loop appends to the result list: the entries of some of
    the files it was given, in their order, each under its position. *)
Lemma loop_results files : forall i st st' c,
  loop i files st = (st', c) ->
  exists sel,
    Subseq sel (indexed i files)
    /\ Process.processedFiles st'
       = Process.processedFiles st ++ List.map (entryOf v sid base) sel.
Proof.
  induction files as [|f rest IH]; intros i st st' c H.
  - cbn [Process.processLoop] in H. inversion H; subst.
    exists []. split; [constructor|]. rewrite app_nil_r. reflexivity.
  - rewrite indexed_cons.
    assert (Skip : forall st0,
      loop (Datatypes.S i) rest st0 = (st', c) ->
      Process.processedFiles st0 = Process.processedFiles st ->
      exists sel,
        Subseq sel ((i, f) :: indexed (Datatypes.S i) rest)
        /\ Process.processedFiles st'
           = Process.processedFiles st ++ List.map (entryOf v sid base) sel).
    { intros st0 H0 E0. destruct (IH _ _ _ _ H0) as [sel [Hs Hp]].
      exists sel. split; [constructor; exact Hs|]. rewrite Hp, E0. reflexivity. }
    cbn [Process.processLoop] in H.
    destruct (pathExists _ _); cbn [negb] in H; [|apply (Skip st H eq_refl)].
    destruct (ffprobe _ _) as [e|D].
    { inversion H; subst. exists []. split; [apply Subseq_nil_l|].
      rewrite app_nil_r. reflexivity. }
    destruct (Process.plan _ _ _ _) as [win|]; [|apply (Skip st H eq_refl)].
    destruct (ffmpeg _ _) as [world' [e|]].
    + inversion H; subst. exists []. split; [apply Subseq_nil_l|].
      cbn [Process.processedFiles]. rewrite app_nil_r. reflexivity.
    + destruct (IH _ _ _ _ H) as [sel [Hs Hp]].
      exists ((i, f) :: sel). split; [constructor; exact Hs|].
      rewrite Hp. cbn [Process.processedFiles List.map].
      rewrite <- app_assoc. reflexivity.
Qed.

(** When the loop ends normally, the result list and the engine
    invocations go in step: the k-th entry was written by the k-th
    invocation, to the session directory joined with its file name. *)
Lemma loop_in_step files : forall i st st',
  loop i files st = (st', Process.Normal) ->
  Forall2 (fun pf cmd =>
             Process.output cmd = join [sessionDir; Process.fileName pf]
             /\ Process.fileName pf <> [])
    (Process.processedFiles st) (Process.issued st) ->
  Forall2 (fun pf cmd =>
             Process.output cmd = join [sessionDir; Process.fileName pf]
             /\ Process.fileName pf <> [])
    (Process.processedFiles st') (Process.issued st').
Proof.
  induction files as [|f rest IH]; intros i st st' H F.
  - cbn [Process.processLoop] in H. inversion H; subst. exact F.
  - cbn [Process.processLoop] in H.
    destruct (pathExists _ _); cbn [negb] in H; [|exact (IH _ _ _ H F)].
    destruct (ffprobe _ _) as [e|D]; [discriminate|].
    destruct (Process.plan _ _ _ _) as [win|]; [|exact (IH _ _ _ H F)].
    destruct (ffmpeg _ _) as [world' [e|]]; [discriminate|].
    apply (IH _ _ _ H). cbn [Process.processedFiles Process.issued].
    apply Forall2_app; [exact F|]. constructor; [|constructor].
    cbn [Process.fileName Process.output Process.command]. split; [reflexivity|].
    unfold Process.outputFileName. intros E0.
    apply app_eq_nil in E0. destruct E0 as [_ E0]. discriminate.
Qed.

(** Every engine invocation reads the upload path of a file of the
    batch, as the request gave it. *)
Lemma loop_inputs files : forall i st st' c,
  loop i files st = (st', c) ->
  forall cmd, In cmd (Process.issued st') ->
  In cmd (Process.issued st)
  \/ exists file, In file files /\ Process.input cmd = Process.uploadPath file.
Proof.
  induction files as [|f rest IH]; intros i st st' c H cmd Hc.
  - cbn [Process.processLoop] in H. inversion H; subst. left. exact Hc.
  - assert (Later : forall st0,
      loop (Datatypes.S i) rest st0 = (st', c) ->
      In cmd (Process.issued st0)
      \/ exists file, In file (f :: rest)
           /\ Process.input cmd = Process.uploadPath file).
    { intros st0 H0. destruct (IH _ _ _ _ H0 cmd Hc) as [I|[file [I O]]];
        [left; exact I | right; exists file; split; [right; exact I|exact O]]. }
    cbn [Process.processLoop] in H.
    destruct (pathExists _ _); cbn [negb] in H; [|apply Later; exact H].
    destruct (ffprobe _ _) as [e|D].
    { inversion H; subst. left. exact Hc. }
    destruct (Process.plan _ _ _ _) as [win|]; [|apply Later; exact H].
    destruct (ffmpeg _ _) as [world' [e|]].
    + inversion H; subst. cbn [Process.issued] in Hc.
      apply in_app_or in Hc. destruct Hc as [I|[<-|[]]]; [left; exact I|].
      right. exists f. split; [left; reflexivity|reflexivity].
    + destruct (Later _ H) as [I|R]; [|right; exact R].
      cbn [Process.issued] in I.
      apply in_app_or in I. destruct I as [I|[<-|[]]]; [left; exact I|].
      right. exists f. split; [left; reflexivity|reflexivity].
Qed.

(** Files that are gone or too short leave no trace: the state is
    unchanged when every file of the batch is skipped. *)
Lemma loop_all_skipped files : forall i st,
  (forall f, In f files ->
     pathExists (Process.world st) (Process.uploadPath f) = false
     \/ (pathExists (Process.world st) (Process.uploadPath f) = true
         /\ exists D, ffprobe (Process.world st) (Process.uploadPath f) = inr D
                      /\ Process.plan v D S E = None)) ->
  loop i files st = (st, Process.Normal).
Proof.
  induction files as [|f rest IH]; intros i st H; [reflexivity|].
  destruct (H f (or_introl eq_refl)) as [G | [G [D [P F]]]].
  - rewrite step_missing by exact G. apply IH. intros g Hg. apply H. right. exact Hg.
  - erewrite step_infeasible; [| exact G | exact P | exact F].
    apply IH. intros g Hg. apply H. right. exact Hg.
Qed.

(** When every file is present, probes to a duration the planning step
    accepts, and the engine never fails, every file is trimmed: one
    entry and one invocation per file. *)
Lemma loop_all_trimmed files : forall i st,
  (forall w f, In f files -> pathExists w (Process.uploadPath f) = true) ->
  (forall w f, In f files ->
     exists D win, ffprobe w (Process.uploadPath f) = inr D
                   /\ Process.plan v D S E = Some win) ->
  (forall w cmd, snd (ffmpeg w cmd) = None) ->
  exists st',
    loop i files st = (st', Process.Normal)
    /\ Process.processedFiles st'
       = Process.processedFiles st
         ++ List.map (entryOf v sid base) (indexed i files)
    /\ List.length (Process.issued st')
       = List.length (Process.issued st) + List.length files.
Proof.
  induction files as [|f rest IH]; intros i st HE HP HF.
  - exists st. cbn. rewrite app_nil_r. repeat split. lia.
  - destruct (HP (Process.world st) f (or_introl eq_refl)) as [D [win [P F]]].
    pose proof (HE (Process.world st) f (or_introl eq_refl)) as G.
    destruct (ffmpeg (Process.world st)
                (Process.command v (Process.uploadPath f) win
                   (join [sessionDir; Process.outputFileName base i f])))
      as [world' out] eqn:R.
    pose proof (HF (Process.world st)
                  (Process.command v (Process.uploadPath f) win
                     (join [sessionDir; Process.outputFileName base i f]))) as O.
    rewrite R in O. cbn [snd] in O. subst out.
    erewrite step_success; [| exact G | exact P | exact F | exact R].
    edestruct (IH (Datatypes.S i)) as [st' [L [PF IS]]];
      [ intros w g Hg; apply HE; right; exact Hg
      | intros w g Hg; apply HP; right; exact Hg
      | exact HF | ].
    exists st'. split; [exact L|]. split.
    + rewrite PF. cbn [Process.processedFiles]. rewrite indexed_cons.
      cbn [List.map]. rewrite <- app_assoc. reflexivity.
    + rewrite IS. cbn [Process.issued List.length]. rewrite length_app.
      cbn [List.length]. lia.
Qed.

(** When nothing is skipped and nothing fails, the engine reads the
    upload paths of the batch, one after the other. *)
Lemma loop_all_trimmed_inputs files : forall i st,
  (forall w f, In f files -> pathExists w (Process.uploadPath f) = true) ->
  (forall w f, In f files ->
     exists D win, ffprobe w (Process.uploadPath f) = inr D
                   /\ Process.plan v D S E = Some win) ->
  (forall w cmd, snd (ffmpeg w cmd) = None) ->
  exists st',
    loop i files st = (st', Process.Normal)
    /\ List.map (@Process.input num) (Process.issued st')
       = List.map (@Process.input num) (Process.issued st)
         ++ List.map Process.uploadPath files.
Proof.
  induction files as [|f rest IH]; intros i st HE HP HF.
  - exists st. cbn. rewrite app_nil_r. split; reflexivity.
  - destruct (HP (Process.world st) f (or_introl eq_refl)) as [D [win [P F]]].
    pose proof (HE (Process.world st) f (or_introl eq_refl)) as G.
    destruct (ffmpeg (Process.world st)
                (Process.command v (Process.uploadPath f) win
                   (join [sessionDir; Process.outputFileName base i f])))
      as [world' out] eqn:R.
    pose proof (HF (Process.world st)
                  (Process.command v (Process.uploadPath f) win
                     (join [sessionDir; Process.outputFileName base i f]))) as O.
    rewrite R in O. cbn [snd] in O. subst out.
    erewrite step_success; [| exact G | exact P | exact F | exact R].
    edestruct (IH (Datatypes.S i)) as [st' [L IS]];
      [ intros w g Hg; apply HE; right; exact Hg
      | intros w g Hg; apply HP; right; exact Hg
      | exact HF | ].
    exists st'. split; [exact L|].
    rewrite IS. cbn [Process.issued]. rewrite map_app, <- app_assoc.
    reflexivity.
Qed.

End BatchFacts.

(** ** The Process handler in general *)

Section ProcessFacts.

Variable num : Type.
Context {JN : Process.JsNumber num}.
Variable World : Type.
Variable pathExists : World -> jsstring -> bool.
Variable ffprobe : World -> jsstring -> jsstring + num.
Variable ffmpeg : World -> Process.Command num -> World * option jsstring.
Variable OUTPUT_DIR : jsstring.

Local Abbreviation process :=
  (Process.process pathExists ffprobe ffmpeg OUTPUT_DIR).

(** X1. Whenever the Process handler answers with a result list, the
    list holds entries of files of the request only, at most one per
    file and in the order of the request, and each entry is named after
    the position its file has in the request ({base}_{position+1}{ext}),
    not after its rank among the successes. *)
Theorem process_results_follow_request v w (req : Process.Request num)
    sid results :
  fst (process v w req) = Process.Json sid results ->
  Process.sessionId req = Some sid
  /\ List.length results <= List.length (Process.files req)
  /\ exists sel,
       Subseq sel (indexed 0 (Process.files req))
       /\ results
          = List.map
              (entryOf v sid (Process.baseName (Process.outputBaseName req)))
              sel.
Proof.
  unfold Process.process, Process.missing. intros H.
  destruct (Process.sessionId req) as [s|] eqn:Es; [|discriminate].
  destruct (negb (truthy s) || _); [discriminate|].
  destruct (Process.run pathExists ffprobe ffmpeg OUTPUT_DIR v w req)
    as [st c] eqn:R.
  destruct c; [|discriminate]. cbn [fst] in H. inversion H; subst.
  unfold Process.run in R. rewrite Es in R.
  destruct (loop_results _ _ _ _ _ _ _ _ _ _ _ _ R) as [sel [Hs Hp]].
  cbn [Process.processedFiles app] in Hp.
  split; [reflexivity|]. split.
  - rewrite Hp, length_map.
    pose proof (Subseq_length Hs) as L. unfold indexed in L.
    rewrite length_combine, length_seq in L. lia.
  - exists sel. split; [exact Hs|exact Hp].
Qed.

(** X3. A batch in which every file is gone from the upload directory
    or too short to trim is not an error: the answer is the empty
    result list, and the engine is never started. *)
Theorem process_nothing_to_trim v w (req : Process.Request num) sid :
  Process.sessionId req = Some sid -> sid <> [] ->
  Process.files req <> [] ->
  (forall f, In f (Process.files req) ->
     pathExists w (Process.uploadPath f) = false
     \/ (pathExists w (Process.uploadPath f) = true
         /\ exists D, ffprobe w (Process.uploadPath f) = inr D
              /\ Process.plan v D (Process.orZero (Process.trimStart req))
                   (Process.orZero (Process.trimEnd req)) = None)) ->
  process v w req = (Process.Json sid [], []).
Proof.
  intros Hs Hn Hf Hskip.
  rewrite (process_unfold _ _ _ _ v w req Hs Hn Hf).
  unfold Process.run. rewrite Hs.
  rewrite loop_all_skipped by exact Hskip. reflexivity.
Qed.

(** X4. When every file of the request is present, probes to a
    duration the planning step accepts, and the engine never fails,
    nothing is dropped: the result list has exactly one entry per file
    of the request, in order, the k-th named {base}_{k}{ext}, and the
    engine was started once per file. *)
Theorem process_all_trimmed v w (req : Process.Request num) sid :
  Process.sessionId req = Some sid -> sid <> [] ->
  Process.files req <> [] ->
  (forall w' f, In f (Process.files req) ->
     pathExists w' (Process.uploadPath f) = true) ->
  (forall w' f, In f (Process.files req) ->
     exists D win,
       ffprobe w' (Process.uploadPath f) = inr D
       /\ Process.plan v D (Process.orZero (Process.trimStart req))
            (Process.orZero (Process.trimEnd req)) = Some win) ->
  (forall w' cmd, snd (ffmpeg w' cmd) = None) ->
  fst (process v w req)
  = Process.Json sid
      (List.map (entryOf v sid (Process.baseName (Process.outputBaseName req)))
         (indexed 0 (Process.files req)))
  /\ List.length (snd (process v w req)) = List.length (Process.files req).
Proof.
  intros Hs Hn Hf HE HP HF.
  rewrite (process_unfold _ _ _ _ v w req Hs Hn Hf).
  unfold Process.run. rewrite Hs.
  edestruct (@loop_all_trimmed num JN World pathExists ffprobe ffmpeg v sid
               (join [OUTPUT_DIR; sid])
               (Process.baseName (Process.outputBaseName req))
               (Process.orZero (Process.trimStart req))
               (Process.orZero (Process.trimEnd req))
               (Process.files req) 0
               {| Process.world := w; Process.processedFiles := [];
                  Process.issued := [] |} HE HP HF) as [st' [L [PF IS]]].
  rewrite L. cbn [fst snd]. rewrite PF, IS. split; reflexivity.
Qed.

(** X5. When the Process handler answers with a result list, the list
    and the engine invocations go in step, and the k-th invocation wrote
    to the very path the retrieve handler reads for the session
    identifier and the k-th listed file name.  If the engine left
    content there, [GET /api/output/{sessionId}/{fileName}] returns
    that content with status 200 when the file name holds only
    characters a header value may hold; for any other listed name (a
    base name in Chinese, say) it answers 500 although the file is
    there. *)
Theorem process_outputs_retrievable v w (req : Process.Request num)
    sid results cmds :
  isAbsolute OUTPUT_DIR = true -> sid <> [] ->
  process v w req = (Process.Json sid results, cmds) ->
  Forall2
    (fun pf cmd =>
       Process.output cmd = join [OUTPUT_DIR; sid; Process.fileName pf]
       /\ forall fs content,
            fs (Process.output cmd) = Some content ->
            (checkInvalidHeaderChar (Process.fileName pf) = false ->
             status (getOutput OUTPUT_DIR fs sid (Process.fileName pf) None)
             = 200%Z
             /\ body (getOutput OUTPUT_DIR fs sid (Process.fileName pf) None)
                = FileStream content)
            /\ (checkInvalidHeaderChar (Process.fileName pf) = true ->
                getOutput OUTPUT_DIR fs sid (Process.fileName pf) None
                = {| status := 500; headers := [];
                     body := JsonError
                               (ERR_INVALID_CHAR
                                  (lit "Content-Disposition")) |}))
    results cmds.
Proof.
  intros Habs Hn H. unfold Process.process, Process.missing in H.
  destruct (Process.sessionId req) as [s|] eqn:Es; [|discriminate].
  destruct (negb (truthy s) || _); [discriminate|].
  destruct (Process.run pathExists ffprobe ffmpeg OUTPUT_DIR v w req)
    as [st c] eqn:R.
  destruct c; [|discriminate]. inversion H; subst.
  unfold Process.run in R. rewrite Es in R.
  pose proof (@loop_in_step num JN World pathExists ffprobe ffmpeg v sid
                (join [OUTPUT_DIR; sid])
                (Process.baseName (Process.outputBaseName req))
                (Process.orZero (Process.trimStart req))
                (Process.orZero (Process.trimEnd req))
                _ _ _ _ R (Forall2_nil _)) as F.
  revert F. apply Forall2_impl. intros pf cmd [O NE].
  assert (P : Process.output cmd
              = join [OUTPUT_DIR; sid; Process.fileName pf]).
  { rewrite O. apply join_join; assumption. }
  split; [exact P|]. intros fs content Hc.
  unfold getOutput. cbv zeta.
  rewrite checkInvalidHeaderChar_disposition. unfold jsstring in *.
  rewrite <- P, Hc. split; intros C; rewrite C; [split|]; reflexivity.
Qed.

(** X6. The engine is only ever started on an upload path taken from a
    file of the request, as the request spelled it: the handler never
    derives an input path of its own.  Nor does it confine the paths to
    the upload directory: whatever paths the request names, when each
    of them exists, probes to a duration the planning step accepts and
    the engine never fails, the engine reads exactly the paths of the
    request, one after the other. *)
Theorem process_reads_requested_paths v w (req : Process.Request num) :
  (forall cmd, In cmd (snd (process v w req)) ->
     exists file,
       In file (Process.files req)
       /\ Process.input cmd = Process.uploadPath file)
  /\ (forall sid,
        Process.sessionId req = Some sid -> sid <> [] ->
        Process.files req <> [] ->
        (forall w' f, In f (Process.files req) ->
           pathExists w' (Process.uploadPath f) = true) ->
        (forall w' f, In f (Process.files req) ->
           exists D win,
             ffprobe w' (Process.uploadPath f) = inr D
             /\ Process.plan v D (Process.orZero (Process.trimStart req))
                  (Process.orZero (Process.trimEnd req)) = Some win) ->
        (forall w' cmd, snd (ffmpeg w' cmd) = None) ->
        List.map (@Process.input num) (snd (process v w req))
        = List.map Process.uploadPath (Process.files req)).
Proof.
  split.
  - intros cmd Hcmd. unfold Process.process in Hcmd.
    destruct (Process.missing _ || _); [destruct Hcmd|].
    destruct (Process.run pathExists ffprobe ffmpeg OUTPUT_DIR v w req)
      as [st c] eqn:R.
    assert (I : In cmd (Process.issued st)) by (destruct c; exact Hcmd).
    unfold Process.run in R.
    destruct (loop_inputs _ _ _ _ _ _ _ _ _ _ _ _ R cmd I) as [[]|X].
    exact X.
  - intros sid Hs Hn Hf HE HP HF.
    rewrite (process_unfold _ _ _ _ v w req Hs Hn Hf).
    unfold Process.run. rewrite Hs.
    edestruct (@loop_all_trimmed_inputs num JN World pathExists ffprobe
                 ffmpeg v sid (join [OUTPUT_DIR; sid])
                 (Process.baseName (Process.outputBaseName req))
                 (Process.orZero (Process.trimStart req))
                 (Process.orZero (Process.trimEnd req))
                 (Process.files req) 0
                 {| Process.world := w; Process.processedFiles := [];
                    Process.issued := [] |} HE HP HF) as [st' [L IS]].
    rewrite L. cbn [snd]. rewrite IS. reflexivity.
Qed.

End ProcessFacts.

Import MoreScenes.

Lemma process_results_follow_request_witness :
  Process.sessionId (request None) = Some (lit "s1")
  /\ 2 <= 3
  /\ exists sel,
       Subseq sel (indexed 0 [fileA; fileB; fileC])
       /\ [ {| Process.pfOriginalName := lit "a.mp4";
               Process.fileName := lit "trimmed_1.mp4";
               Process.url := lit "/api/output/s1/trimmed_1.mp4" |};
            {| Process.pfOriginalName := lit "c.webm";
               Process.fileName := lit "trimmed_3.webm";
               Process.url := lit "/api/output/s1/trimmed_3.webm" |} ]
          = List.map (entryOf Process.ApiReencode (lit "s1") (lit "trimmed")) sel.
Proof.
  refine (@process_results_follow_request float _ unit
            (existExcept (Process.uploadPath fileB)) probe10 engineOk
            OUTPUT_DIR Process.ApiReencode tt (request None) (lit "s1")
            [ {| Process.pfOriginalName := lit "a.mp4";
                 Process.fileName := lit "trimmed_1.mp4";
                 Process.url := lit "/api/output/s1/trimmed_1.mp4" |};
              {| Process.pfOriginalName := lit "c.webm";
                 Process.fileName := lit "trimmed_3.webm";
                 Process.url := lit "/api/output/s1/trimmed_3.webm" |} ] _).
  vm_compute. reflexivity.
Defined.

Lemma process_nothing_to_trim_witness :
  Process.process (existExcept (Process.uploadPath fileA))
    (probeAll (3 / 2)%float) engineOk OUTPUT_DIR Process.ServerCopy tt
    (request None)
  = (Process.Json (lit "s1") [], []).
Proof.
  apply (@process_nothing_to_trim float _ unit
           (existExcept (Process.uploadPath fileA)) (probeAll (3 / 2)%float)
           engineOk OUTPUT_DIR Process.ServerCopy tt (request None) (lit "s1")).
  - reflexivity.
  - discriminate.
  - discriminate.
  - intros f [<-|[<-|[<-|[]]]].
    + left. vm_compute. reflexivity.
    + right. split; [vm_compute; reflexivity|].
      exists (3 / 2)%float. split; vm_compute; reflexivity.
    + right. split; [vm_compute; reflexivity|].
      exists (3 / 2)%float. split; vm_compute; reflexivity.
Defined.

Lemma process_all_trimmed_witness :
  fst (Process.process allExist probe10 engineOk OUTPUT_DIR
         Process.ApiCopy tt (request (Some (lit "clip"))))
  = Process.Json (lit "s1")
      (List.map (entryOf Process.ApiCopy (lit "s1") (lit "clip"))
         [(0, fileA); (1, fileB); (2, fileC)])
  /\ List.length
       (snd (Process.process allExist probe10 engineOk OUTPUT_DIR
               Process.ApiCopy tt (request (Some (lit "clip"))))) = 3.
Proof.
  apply (@process_all_trimmed float _ unit allExist probe10 engineOk
           OUTPUT_DIR Process.ApiCopy tt (request (Some (lit "clip")))
           (lit "s1")).
  - reflexivity.
  - discriminate.
  - discriminate.
  - reflexivity.
  - intros w' f _. exists 10%float. eexists. split; [reflexivity|].
    vm_compute. reflexivity.
  - reflexivity.
Defined.

Lemma process_outputs_retrievable_witness :
  Forall2
    (fun pf cmd =>
       Process.output cmd
       = join [OUTPUT_DIR; lit "s1"; Process.fileName pf]
       /\ forall fs content,
            fs (Process.output cmd) = Some content ->
            (checkInvalidHeaderChar (Process.fileName pf) = false ->
             status (getOutput OUTPUT_DIR fs (lit "s1")
                       (Process.fileName pf) None) = 200%Z
             /\ body (getOutput OUTPUT_DIR fs (lit "s1")
                        (Process.fileName pf) None) = FileStream content)
            /\ (checkInvalidHeaderChar (Process.fileName pf) = true ->
                getOutput OUTPUT_DIR fs (lit "s1") (Process.fileName pf) None
                = {| status := 500; headers := [];
                     body := JsonError
                               (ERR_INVALID_CHAR
                                  (lit "Content-Disposition")) |}))
    (List.map (entryOf Process.ApiReencode (lit "s1") (lit "trimmed"))
       [(0, fileA); (1, fileB); (2, fileC)])
    (snd (Process.process allExist probe10 engineOk OUTPUT_DIR
            Process.ApiReencode tt (request None))).
Proof.
  apply (@process_outputs_retrievable float _ unit allExist probe10 engineOk
           OUTPUT_DIR Process.ApiReencode tt (request None) (lit "s1")).
  - reflexivity.
  - discriminate.
  - vm_compute. reflexivity.
Defined.

Lemma process_reads_requested_paths_witness :
  List.map (@Process.input float)
    (snd (Process.process allExist probe10 engineOk OUTPUT_DIR
            Process.ApiReencode tt strayRequest))
  = [lit "/home/user/private.mov"]
  /\ inside (Storage.UPLOAD_DIR (lit "/tmp")) (lit "/home/user/private.mov")
     = false.
Proof.
  split; [|vm_compute; reflexivity].
  refine (proj2 (@process_reads_requested_paths float _ unit allExist probe10
                   engineOk OUTPUT_DIR Process.ApiReencode tt strayRequest)
            (lit "s1") eq_refl _ _ _ _ _).
  - discriminate.
  - discriminate.
  - reflexivity.
  - intros w' f _. exists 10%float. eexists. split; [reflexivity|].
    vm_compute. reflexivity.
  - reflexivity.
Defined.

(** ** Output names never collide *)

Lemma takeWhile_app_stop (p : N -> bool) (xs : jsstring) (c : N) (r : jsstring) :
  Forall (fun x => p x = true) xs -> p c = false ->
  takeWhile p (xs ++ c :: r) = xs.
Proof.
  induction 1 as [|x xs Hx _ IH]; intros Hc; cbn [app takeWhile].
  - rewrite Hc. reflexivity.
  - rewrite Hx, IH by exact Hc. reflexivity.
Qed.

Lemma dec_inj (a b : N) : dec a = dec b -> a = b.
Proof.
  intros H. rewrite <- (dec_value a), <- (dec_value b), H. reflexivity.
Qed.

(** The extension used for an output always starts with a dot. *)
Lemma originalExt_shape (file : Process.FileRef) :
  exists e, Process.originalExt file = 46%N :: e.
Proof.
  unfold Process.originalExt, orElse.
  destruct (extname_shape (Process.originalName file)) as [E|[e E]];
    rewrite E; cbn [truthy]; eexists; reflexivity.
Qed.

Lemma outputFileName_position (base : jsstring) (i j : nat)
    (f g : Process.FileRef) :
  Process.outputFileName base i f = Process.outputFileName base j g -> i = j.
Proof.
  unfold Process.outputFileName. intros H.
  apply app_inv_head in H. cbn [app] in H. inversion H as [H1].
  destruct (originalExt_shape f) as [e1 E1].
  destruct (originalExt_shape g) as [e2 E2].
  rewrite E1, E2 in H1.
  apply (f_equal (takeWhile isDigit)) in H1.
  rewrite !takeWhile_app_stop in H1
    by (apply dec_digits || reflexivity).
  apply dec_inj in H1. lia.
Qed.

(** X2. Two files at different positions of a batch never get the same
    output file name, whatever their original names; and when the base
    name holds no path separator they never get the same output path, so
    no trimmed file of a batch overwrites another. *)
Theorem outputs_of_a_batch_are_distinct (OUTPUT_DIR sid base : jsstring)
    (i j : nat) (f g : Process.FileRef) :
  i <> j ->
  Process.outputFileName base i f <> Process.outputFileName base j g
  /\ (isAbsolute OUTPUT_DIR = true -> sid <> [] -> ~ In 47%N base ->
      join [join [OUTPUT_DIR; sid]; Process.outputFileName base i f]
      <> join [join [OUTPUT_DIR; sid]; Process.outputFileName base j g]).
Proof.
  intros Hij. split.
  - intros H. apply Hij. exact (outputFileName_position _ _ _ _ _ H).
  - intros Habs Hn Hb H.
    assert (Hout : OUTPUT_DIR <> [])
      by (intros E; rewrite E in Habs; discriminate).
    rewrite (@join_two OUTPUT_DIR sid Hout Hn) in H.
    assert (Aq : isAbsolute (OUTPUT_DIR ++ 47%N :: sid) = true)
      by (destruct OUTPUT_DIR; [congruence|exact Habs]).
    destruct (@outputFileName_component base i f Hb) as [N1 C1].
    destruct (@outputFileName_component base j g Hb) as [N2 C2].
    destruct (@join_adds_component _ _ Aq N1 C1) as [E1 _].
    destruct (@join_adds_component _ _ Aq N2 C2) as [E2 _].
    rewrite H, E2 in E1. apply app_inv_head in E1. inversion E1 as [E].
    apply Hij. symmetry. exact (outputFileName_position _ _ _ _ _ E).
Qed.

Lemma outputs_of_a_batch_are_distinct_witness :
  Process.outputFileName (lit "clip") 0 fileA
  <> Process.outputFileName (lit "clip") 2 fileA
  /\ join [join [OUTPUT_DIR; lit "s1"];
           Process.outputFileName (lit "clip") 0 fileA]
     <> join [join [OUTPUT_DIR; lit "s1"];
              Process.outputFileName (lit "clip") 2 fileA].
Proof.
  destruct (@outputs_of_a_batch_are_distinct OUTPUT_DIR (lit "s1")
              (lit "clip") 0 2 fileA fileA ltac:(discriminate)) as [A B].
  split; [exact A|]. apply B.
  - reflexivity.
  - discriminate.
  - vm_compute. intros I.
    repeat (destruct I as [I|I]; [discriminate I|]). exact I.
Defined.

(** ** The byte-range server at and beyond its bounds *)

Lemma parseInt_digits_then (ds : jsstring) (c : N) (r : jsstring) :
  ds <> [] -> Forall (fun d => isDigit d = true) ds -> isDigit c = false ->
  parseInt (ds ++ c :: r) = toNumber (Z.of_N (digitsValue ds)).
Proof.
  intros NE F Hc. unfold parseInt, trimStart.
  destruct ds as [|d t]; [congruence|].
  inversion F as [|? ? Hd Ht]; subst.
  cbn [app dropWhile]. rewrite (digit_not_space _ Hd).
  rewrite (stripSign_digit d (t ++ c :: r) Hd).
  change (d :: t ++ c :: r) with ((d :: t) ++ c :: r).
  rewrite takeWhile_app_stop by assumption. reflexivity.
Qed.

Lemma split_head (sep : N) (s : jsstring) :
  nth 0 (split sep s) [] = takeWhile (fun c => negb (c =? sep)%N) s.
Proof.
  induction s as [|c r IH]; cbn [split takeWhile]; [reflexivity|].
  destruct (c =? sep)%N; cbn [negb]; [reflexivity|].
  pose proof (split_nonempty sep r) as NE.
  destruct (split sep r) as [|x xs]; [congruence|].
  cbn [nth] in *. rewrite IH. reflexivity.
Qed.

Lemma replaceFirst_absent (c0 : N) (pat rep s : jsstring) :
  ~ In c0 s -> replaceFirst (c0 :: pat) rep s = s.
Proof.
  induction s as [|c r IH]; intros H; [reflexivity|].
  cbn [replaceFirst startsWith].
  destruct (N.eqb_spec c0 c) as [->|NE]; [exfalso; apply H; left; reflexivity|].
  cbn [andb]. rewrite IH; [reflexivity|]. intros I. apply H. right. exact I.
Qed.

(** X8. The end of a range is not clamped to the file: for
    [bytes=a-b] with a <= b, whatever the size N of the file, the answer
    is 206 with Content-Range [bytes a-b/N] and Content-Length b-a+1,
    while the body holds the bytes from a to the end of the file at
    most; when b >= N it is shorter than the length announced (empty
    when a >= N), and the answer is never 416. *)
Theorem getOutput_end_not_clamped (OUTPUT_DIR : jsstring) (fs : FileSystem)
    (sessionId filename : jsstring) (content : bytes) (a b : N) :
  fs (join [OUTPUT_DIR; sessionId; filename]) = Some content ->
  (a <= b)%N -> (Z.of_N b <= MAX_SAFE_INTEGER)%Z ->
  let size := N.of_nat (List.length content) in
  let sent := firstn (N.to_nat (b - a + 1)) (skipn (N.to_nat a) content) in
  getOutput OUTPUT_DIR fs sessionId filename
    (Some (lit "bytes=" ++ dec a ++ lit "-" ++ dec b))
  = {| status := 206;
       headers :=
         [ (lit "Content-Range",
            HStr (lit "bytes " ++ dec a ++ lit "-" ++ dec b ++ lit "/"
                  ++ dec size));
           (lit "Accept-Ranges", HStr (lit "bytes"));
           (lit "Content-Length", HNum (Num (Z.of_N (b - a + 1))));
           (lit "Content-Type", HStr (lit "video/mp4")) ];
       body := FileStream sent |}
  /\ N.of_nat (List.length sent) = N.min (b - a + 1) (size - a)
  /\ ((size <= b)%N -> (N.of_nat (List.length sent) < b - a + 1)%N).
Proof.
  intros Hfs Hab Hb size sent.
  assert (Esize : Z.of_nat (List.length content) = Z.of_N size)
    by (unfold size; lia).
  assert (L : N.of_nat (List.length sent) = N.min (b - a + 1) (size - a)).
  { unfold sent, size. rewrite length_firstn, length_skipn. lia. }
  split; [|split; [exact L | intros H; rewrite L; lia]].
  unfold getOutput. rewrite Hfs. cbv zeta.
  assert (T : truthy (lit "bytes=" ++ dec a ++ lit "-" ++ dec b) = true)
    by reflexivity.
  rewrite T, range_parts_closed. cbn [nth].
  rewrite truthy_dec, !parseInt_offset by lia.
  rewrite createReadStream_slice by assumption.
  rewrite chunksize_exact by assumption.
  rewrite Esize, !numToString_nat. reflexivity.
Qed.

Lemma getOutput_end_not_clamped_witness :
  get1000 (Some (lit "bytes=990-1999"))
  = {| status := 206;
       headers :=
         [ (lit "Content-Range", HStr (lit "bytes 990-1999/1000"));
           (lit "Accept-Ranges", HStr (lit "bytes"));
           (lit "Content-Length", HNum (Num 1010));
           (lit "Content-Type", HStr (lit "video/mp4")) ];
       body := FileStream (repeat Byte.x00 10) |}.
Proof.
  assert (Hfs : store1000 (join [lit "/tmp/output"; lit "s1";
                                 lit "trimmed_1.mp4"])
                = Some (repeat Byte.x00 1000)) by (vm_compute; reflexivity).
  destruct (@getOutput_end_not_clamped (lit "/tmp/output") store1000
              (lit "s1") (lit "trimmed_1.mp4") (repeat Byte.x00 1000)
              990%N 1999%N Hfs ltac:(vm_compute; discriminate)
              ltac:(vm_compute; discriminate)) as [E _].
  unfold get1000. etransitivity; [exact E|]. vm_compute. reflexivity.
Defined.

(** X10. A range whose start lies after its end, [bytes=a-b] with
    b < a, is answered with the error response, status 500: creating the
    read stream throws on the start, which it received as the double
    nearest to a (a itself up to 2^53, Infinity beyond the doubles). *)
Theorem getOutput_reversed_range_fails (OUTPUT_DIR : jsstring)
    (fs : FileSystem) (sessionId filename : jsstring) (content : bytes)
    (a b : N) :
  fs (join [OUTPUT_DIR; sessionId; filename]) = Some content ->
  (b < a)%N ->
  getOutput OUTPUT_DIR fs sessionId filename
    (Some (lit "bytes=" ++ dec a ++ lit "-" ++ dec b))
  = {| status := 500; headers := [];
       body := JsonError
                 (ERR_OUT_OF_RANGE (lit "start") (toNumber (Z.of_N a))) |}.
Proof.
  intros Hfs Hba. unfold getOutput. rewrite Hfs. cbv zeta.
  assert (T : truthy (lit "bytes=" ++ dec a ++ lit "-" ++ dec b) = true)
    by reflexivity.
  rewrite T, range_parts_closed. cbn [nth].
  rewrite truthy_dec, !parseInt_dec.
  unfold createReadStream.
  destruct (Z.le_gt_cases (2 ^ 53) (Z.of_N a)) as [Big|Small].
  - (* the start is no safe integer *)
    destruct (toNumber_large Big) as [E|[v [E Hv]]]; rewrite E;
      [reflexivity|].
    replace (validateInteger (Num v)) with false; [reflexivity|].
    symmetry. unfold validateInteger, MAX_SAFE_INTEGER.
    apply andb_false_intro2. apply Z.leb_gt. lia.
  - rewrite !toNumber_exact by lia.
    rewrite !validateInteger_offset by (unfold MAX_SAFE_INTEGER; lia).
    cbn [negb isInfinity]. unfold gtNum.
    destruct (Z.ltb_spec (Z.of_N b) (Z.of_N a)); [reflexivity|lia].
Qed.

Lemma getOutput_reversed_range_fails_witness :
  get1000 (Some (lit "bytes=500-100"))
  = {| status := 500; headers := [];
       body := JsonError (ERR_OUT_OF_RANGE (lit "start") (Num 500)) |}.
Proof.
  assert (Hfs : store1000 (join [lit "/tmp/output"; lit "s1";
                                 lit "trimmed_1.mp4"])
                = Some (repeat Byte.x00 1000)) by (vm_compute; reflexivity).
  exact (@getOutput_reversed_range_fails (lit "/tmp/output") store1000
           (lit "s1") (lit "trimmed_1.mp4") (repeat Byte.x00 1000)
           500%N 100%N Hfs ltac:(vm_compute; reflexivity)).
Defined.

Lemma takeWhile_app_all (p : N -> bool) (xs ys : jsstring) :
  Forall (fun x => p x = true) xs ->
  takeWhile p (xs ++ ys) = xs ++ takeWhile p ys.
Proof.
  induction 1 as [|x xs Hx _ IH]; cbn [app takeWhile]; [reflexivity|].
  rewrite Hx, IH. reflexivity.
Qed.

Lemma dec_no_b (n : N) : ~ In 98%N (dec n).
Proof. apply digit_not_in; [reflexivity | apply dec_digits]. Qed.

(** X9. Only the first range of a header is looked at, and the unit is
    not checked: a multi-range header [bytes=a-b,...] is answered
    exactly like [bytes=a-b], whatever follows the comma, and so is the
    header [a-b] without [bytes=]. *)
Theorem getOutput_first_range_only (OUTPUT_DIR : jsstring) (fs : FileSystem)
    (sessionId filename : jsstring) (a b : N) (more : jsstring) :
  getOutput OUTPUT_DIR fs sessionId filename
    (Some (lit "bytes=" ++ dec a ++ lit "-" ++ dec b ++ lit "," ++ more))
  = getOutput OUTPUT_DIR fs sessionId filename
      (Some (lit "bytes=" ++ dec a ++ lit "-" ++ dec b))
  /\ getOutput OUTPUT_DIR fs sessionId filename
       (Some (dec a ++ lit "-" ++ dec b))
     = getOutput OUTPUT_DIR fs sessionId filename
         (Some (lit "bytes=" ++ dec a ++ lit "-" ++ dec b)).
Proof.
  unfold getOutput.
  destruct (fs (join [OUTPUT_DIR; sessionId; filename])) as [content|];
    [|split; reflexivity].
  cbv zeta.
  assert (T1 : truthy (lit "bytes=" ++ dec a ++ lit "-" ++ dec b
                       ++ lit "," ++ more) = true) by reflexivity.
  assert (T2 : truthy (lit "bytes=" ++ dec a ++ lit "-" ++ dec b) = true)
    by reflexivity.
  assert (T3 : truthy (dec a ++ lit "-" ++ dec b) = true).
  { pose proof (dec_nonempty a). destruct (dec a); [congruence|reflexivity]. }
  rewrite T1, T2, T3, range_parts_closed. cbn [nth].
  split.
  - rewrite replaceFirst_prefix. cbn [app].
    change (lit "-") with [45%N]. change (lit ",") with [44%N]. cbn [app].
    rewrite split_app_sep by apply dec_no_minus. cbn [nth].
    rewrite split_head.
    rewrite takeWhile_app_all.
    + cbn [takeWhile N.eqb Pos.eqb negb].
      set (rest := takeWhile (fun c : N => negb (c =? 45)%N) more).
      assert (T4 : truthy (dec b ++ 44%N :: rest) = true).
      { pose proof (dec_nonempty b). destruct (dec b); [congruence|reflexivity]. }
      rewrite T4, truthy_dec.
      rewrite (@parseInt_digits_then (dec b) 44%N rest)
        by (apply dec_nonempty || apply dec_digits || reflexivity).
      rewrite dec_value, !parseInt_dec. reflexivity.
    + apply Forall_forall. intros x Hx.
      destruct (N.eqb_spec x 45) as [->|]; [|reflexivity].
      exfalso. exact (dec_no_minus _ Hx).
  - change (lit "bytes=") with (98%N :: lit "ytes=").
    rewrite replaceFirst_absent.
    + change (lit "-") with [45%N]. cbn [app].
      rewrite split_app_sep by apply dec_no_minus.
      rewrite split_no_sep by apply dec_no_minus. reflexivity.
    + intros I. apply in_app_or in I. destruct I as [I|I];
        [exact (dec_no_b _ I)|].
      apply in_app_or in I. destruct I as [I|I];
        [destruct I as [I|[]]; discriminate | exact (dec_no_b _ I)].
Qed.

(** ** The planning step at its edges, on doubles *)

Lemma is_nan_spec (x : float) :
  PrimFloat.is_nan x = true -> Prim2SF x = S754_nan.
Proof.
  unfold PrimFloat.is_nan. rewrite FloatAxioms.eqb_spec.
  destruct (Prim2SF x) as [s|s| |s m e]; try reflexivity; intros H; exfalso.
  - destruct s; discriminate.
  - destruct s; discriminate.
  - unfold SFeqb, SFcompare in H.
    rewrite Z.compare_refl, Pos.compare_cont_refl in H.
    destruct s; discriminate.
Qed.

Lemma nan_is_nan (x : float) :
  Prim2SF x = S754_nan -> PrimFloat.is_nan x = true.
Proof.
  intros H. unfold PrimFloat.is_nan. rewrite FloatAxioms.eqb_spec, H.
  reflexivity.
Qed.

Lemma sub_nan_l (x y : float) :
  Prim2SF x = S754_nan -> Prim2SF (PrimFloat.sub x y) = S754_nan.
Proof. intros H. rewrite FloatAxioms.sub_spec, H. reflexivity. Qed.

Lemma leb_nan_l (x y : float) :
  Prim2SF x = S754_nan -> PrimFloat.leb x y = false.
Proof. intros H. rewrite FloatAxioms.leb_spec, H. reflexivity. Qed.

(** Subtracting zero changes no double. *)
Lemma sub_zero_r (x : float) : PrimFloat.sub x PrimFloat.zero = x.
Proof.
  apply Prim2SF_inj. rewrite FloatAxioms.sub_spec.
  change (Prim2SF PrimFloat.zero) with (S754_zero false).
  destruct (Prim2SF x) as [s|s| |s m e]; try reflexivity.
  destruct s; reflexivity.
Qed.

Lemma orZero_falsy (x : float) :
  Process.nfalsy x = true -> Process.orZero x = PrimFloat.zero.
Proof. intros H. unfold Process.orZero. rewrite H. reflexivity. Qed.

(** [x || 0] is never NaN. *)
Lemma orZero_not_nan (x : float) :
  PrimFloat.is_nan (Process.orZero x) = false.
Proof.
  unfold Process.orZero. cbn [Process.nfalsy Process.nzero Process.Float64].
  destruct (PrimFloat.is_nan x) eqn:Hn; cbn [orb]; [reflexivity|].
  destruct (PrimFloat.is_zero x); [reflexivity|exact Hn].
Qed.

(** X7. A file whose duration the probe could not tell (NaN, as when
    [metadata.format.duration] is undefined) is never skipped as too
    short: in every revision the planning step accepts it and hands the
    engine the requested start with an end, or a duration, that is
    NaN. *)
Theorem unknown_duration_is_not_skipped (v : Process.Variant) (D S E : float) :
  PrimFloat.is_nan D = true ->
  exists x,
    PrimFloat.is_nan x = true
    /\ Process.plan v D S E
       = Some {| Process.startTime := S;
                 Process.bound :=
                   match v with
                   | Process.ApiReencode => Process.To x
                   | _ => Process.Duration x
                   end |}.
Proof.
  intros H. apply is_nan_spec in H.
  assert (A : Process.planEndTime D S E
              = Some {| Process.startTime := S;
                        Process.bound := Process.To (PrimFloat.sub D E) |}).
  { unfold Process.planEndTime.
    cbn [Process.nleb Process.nsub Process.Float64].
    rewrite leb_nan_l by (apply sub_nan_l; exact H). reflexivity. }
  assert (B : Process.planNewDuration D S E
              = Some {| Process.startTime := S;
                        Process.bound :=
                          Process.Duration
                            (PrimFloat.sub (PrimFloat.sub D S) E) |}).
  { unfold Process.planNewDuration.
    cbn [Process.nleb Process.nsub Process.nzero Process.Float64].
    rewrite leb_nan_l by (do 2 apply sub_nan_l; exact H). reflexivity. }
  destruct v.
  - exists (PrimFloat.sub D E). split; [|exact A].
    apply nan_is_nan, sub_nan_l. exact H.
  - exists (PrimFloat.sub (PrimFloat.sub D S) E). split; [|exact B].
    apply nan_is_nan. do 2 apply sub_nan_l. exact H.
  - exists (PrimFloat.sub (PrimFloat.sub D S) E). split; [|exact B].
    apply nan_is_nan. do 2 apply sub_nan_l. exact H.
Qed.

Lemma unknown_duration_is_not_skipped_witness :
  exists x,
    PrimFloat.is_nan x = true
    /\ Process.plan Process.ServerCopy PrimFloat.nan 1%float 1%float
       = Some {| Process.startTime := 1%float;
                 Process.bound := Process.Duration x |}.
Proof.
  exact (@unknown_duration_is_not_skipped Process.ServerCopy PrimFloat.nan
           1%float 1%float eq_refl).
Defined.

(** X11. When both cuts are absent, not numeric or zero (so that
    [parseFloat(...) || 0] is 0), all revisions agree exactly, with no
    rounding: a file is skipped exactly when its duration is [<= 0], and
    otherwise the engine is handed the start 0 and the whole duration
    [D], as the end in api/index.js and as the output duration in the
    stream-copy revisions. *)
Theorem zero_cuts_keep_whole_video (v : Process.Variant) (D ts te : float) :
  Process.nfalsy ts = true -> Process.nfalsy te = true ->
  Process.plan v D (Process.orZero ts) (Process.orZero te)
  = if PrimFloat.leb D PrimFloat.zero then None
    else Some {| Process.startTime := PrimFloat.zero;
                 Process.bound :=
                   match v with
                   | Process.ApiReencode => Process.To D
                   | _ => Process.Duration D
                   end |}.
Proof.
  intros Hs He. rewrite (orZero_falsy _ Hs), (orZero_falsy _ He).
  destruct v; cbn [Process.plan];
    unfold Process.planEndTime, Process.planNewDuration;
    cbn [Process.nleb Process.nsub Process.nzero Process.Float64];
    rewrite !sub_zero_r; reflexivity.
Qed.

Lemma zero_cuts_keep_whole_video_witness :
  Process.plan Process.ApiCopy 10%float
    (Process.orZero PrimFloat.nan) (Process.orZero PrimFloat.zero)
  = Some {| Process.startTime := PrimFloat.zero;
            Process.bound := Process.Duration 10%float |}.
Proof.
  exact (@zero_cuts_keep_whole_video Process.ApiCopy 10%float
           PrimFloat.nan PrimFloat.zero eq_refl eq_refl).
Defined.

(** ** The upload filter, the upload handler and the names of the outputs *)

(** X12. The upload filter turns away every file whose content type is
    [video/quicktime], [video/x-msvideo] or [video/x-matroska] (the
    registered types of .mov, .avi and .mkv files), whatever its name:
    none of the five words occurs in these types.  The client's own
    check, [type.startsWith('video/')], lets the same files into the
    queue. *)
Theorem registered_types_are_rejected (toLowerCase : jsstring -> jsstring)
    (file : Upload.File) (queued : Client.BrowserFile) :
  In (Upload.mimetype file)
     [lit "video/quicktime"; lit "video/x-msvideo"; lit "video/x-matroska"] ->
  Client.type queued = Upload.mimetype file ->
  Client.isVideo queued = true
  /\ Upload.fileFilter toLowerCase file
     = Upload.Reject (lit "Only video files are allowed").
Proof.
  intros H T. unfold Client.isVideo, Upload.fileFilter. rewrite T.
  destruct H as [<-|[<-|[<-|[]]]];
    (split; [vm_compute; reflexivity|]);
    match goal with
    | |- context [Upload.allowedTypes_test (lit ?s)] =>
        replace (Upload.allowedTypes_test (lit s)) with false
          by (vm_compute; reflexivity)
    end;
    rewrite andb_false_r; reflexivity.
Qed.

Lemma registered_types_are_rejected_witness :
  Client.isVideo movFile = true
  /\ Upload.fileFilter Upload.asciiLower quicktimeClip
     = Upload.Reject (lit "Only video files are allowed").
Proof.
  apply (@registered_types_are_rejected Upload.asciiLower quicktimeClip movFile).
  - left. reflexivity.
  - reflexivity.
Defined.

Lemma accepted_has_extension (toLowerCase : jsstring -> jsstring)
    (file : Upload.File) :
  toLowerCase [] = [] ->
  Upload.fileFilter toLowerCase file = Upload.Accept ->
  exists e, extname (Upload.originalname file) = 46%N :: e.
Proof.
  intros L H. unfold Upload.fileFilter in H.
  destruct (extname_shape (Upload.originalname file)) as [E|[e E]];
    [|exists e; exact E].
  rewrite E, L in H. cbn in H. discriminate.
Qed.

(** X13. Upload and processing composed: the upload handler hands back
    the session id it drew and, for each stored file, its original name
    and stored path, in the order of [req.files].  As the filter only
    lets through names with an extension, the output name of such a
    file always ends in the file's own extension, and the [.mp4]
    default of the Process handler is never used for it. *)
Theorem uploaded_files_keep_their_extension
    (toLowerCase : jsstring -> jsstring) (World : Type)
    (ensureDir : World -> jsstring -> World * option jsstring)
    (OUTPUT_DIR : jsstring) (w w' : World) (reqFiles : list Storage.Stored)
    (uuid sid : jsstring) (refs : list Process.FileRef) :
  toLowerCase [] = [] ->
  Forall (fun f => Upload.fileFilter toLowerCase (Storage.file f)
                   = Upload.Accept) reqFiles ->
  Storage.upload ensureDir OUTPUT_DIR w (Some reqFiles) uuid
  = (w', Storage.Uploaded sid refs) ->
  sid = uuid
  /\ List.map Process.originalName refs
     = List.map (fun f => Upload.originalname (Storage.file f)) reqFiles
  /\ List.map Process.uploadPath refs = List.map Storage.path reqFiles
  /\ forall ref, In ref refs ->
     exists e,
       extname (Process.originalName ref) = 46%N :: e
       /\ forall base i,
          Process.outputFileName base i ref
          = base ++ [95%N] ++ dec (N.of_nat i + 1) ++ 46%N :: e.
Proof.
  intros L F H. unfold Storage.upload in H.
  destruct (List.length reqFiles =? 0)%nat; [discriminate|].
  destruct (ensureDir w _) as [w1 [err|]]; [discriminate|].
  inversion H; subst. clear H.
  split; [reflexivity|]. rewrite !map_map. cbn [fst snd
    Process.originalName Process.uploadPath].
  split; [reflexivity|]. split; [reflexivity|].
  intros ref I. apply in_map_iff in I. destruct I as [f [<- I]].
  cbn [fst snd Process.originalName].
  rewrite Forall_forall in F.
  destruct (@accepted_has_extension toLowerCase (Storage.file f) L (F f I))
    as [e E].
  exists e. split; [exact E|]. intros base i.
  unfold Process.outputFileName, Process.originalExt.
  cbn [Process.originalName]. rewrite E. reflexivity.
Qed.

Lemma uploaded_files_keep_their_extension_witness :
  List.map (Process.outputFileName (lit "trimmed") 0)
    match snd (Storage.upload ensureOk (lit "/tmp/output") tt
                 (Some [storedClip]) (lit "s1")) with
    | Storage.Uploaded _ refs => refs
    | _ => []
    end
  = [lit "trimmed_1.MP4"].
Proof.
  destruct (@uploaded_files_keep_their_extension Upload.asciiLower unit
              ensureOk (lit "/tmp/output") tt tt [storedClip] (lit "s1")
              (lit "s1")
              [{| Process.originalName := lit "Holiday.MP4";
                  Process.uploadPath := lit "/tmp/uploads/u1-Holiday.MP4" |}]
              eq_refl
              ltac:(repeat constructor)
              eq_refl) as [_ [_ [_ K]]].
  destruct (K _ (or_introl eq_refl)) as [e [E O]].
  change (match snd (Storage.upload ensureOk (lit "/tmp/output") tt
                       (Some [storedClip]) (lit "s1")) with
          | Storage.Uploaded _ refs => refs
          | _ => []
          end)
    with [{| Process.originalName := lit "Holiday.MP4";
             Process.uploadPath := lit "/tmp/uploads/u1-Holiday.MP4" |}].
  cbn [List.map]. rewrite O. vm_compute in E. injection E as <-.
  vm_compute. reflexivity.
Defined.

(** ** The client's queue *)

Lemma filterIndex_past (index : nat) (prev : list Client.BrowserFile) :
  forall i, index < i -> Client.filterIndex index i prev = prev.
Proof.
  induction prev as [|x r IH]; intros i H; cbn [Client.filterIndex];
    [reflexivity|].
  destruct (Nat.eqb_spec i index) as [E|_]; [lia|]. cbn [negb].
  rewrite IH by lia. reflexivity.
Qed.

Lemma filterIndex_from (index : nat) (prev : list Client.BrowserFile) :
  forall i, i <= index ->
  Client.filterIndex index i prev
  = firstn (index - i) prev ++ skipn (Datatypes.S (index - i)) prev.
Proof.
  induction prev as [|x r IH]; intros i H; cbn [Client.filterIndex].
  - rewrite firstn_nil, skipn_nil. reflexivity.
  - destruct (Nat.eqb_spec i index) as [E|NE]; cbn [negb].
    + subst. rewrite Nat.sub_diag. cbn [firstn skipn app].
      apply filterIndex_past. lia.
    + rewrite IH by lia.
      replace (index - i) with (Datatypes.S (index - Datatypes.S i)) by lia.
      reflexivity.
Qed.

Lemma filterIndex_Forall (P : Client.BrowserFile -> Prop) (index : nat)
    (prev : list Client.BrowserFile) :
  forall i, Forall P prev -> Forall P (Client.filterIndex index i prev).
Proof.
  induction prev as [|x r IH]; intros i F; cbn [Client.filterIndex];
    [constructor|].
  inversion F; subst.
  destruct (negb (i =? index)%nat); [constructor; auto|auto].
Qed.

(** X15. Removing position [index] from the queue takes out exactly the
    file at that position and keeps the others in their order (a
    position beyond the queue removes nothing); the results and the
    archive link of an earlier run stay as they were. *)
Theorem removeFile_takes_out_one (st : Client.State) (index : nat) :
  Client.files (Client.removeFile st index)
  = firstn index (Client.files st)
    ++ skipn (Datatypes.S index) (Client.files st)
  /\ Client.processedFiles (Client.removeFile st index)
     = Client.processedFiles st
  /\ Client.zipUrl (Client.removeFile st index) = Client.zipUrl st.
Proof.
  split; [|split; reflexivity].
  unfold Client.removeFile, Client.setFiles. cbn [Client.files].
  rewrite filterIndex_from by lia. rewrite Nat.sub_0_r. reflexivity.
Qed.

Lemma filter_Forall {A : Type} (p : A -> bool) (l : list A) :
  Forall (fun x => p x = true) (filter p l).
Proof.
  apply Forall_forall. intros x I. apply filter_In in I. tauto.
Qed.

Lemma step_queueOk (st : Client.State) (a : Client.Action) :
  queueOk st -> queueOk (Client.step st a).
Proof.
  intros [F [S E]]. destruct a; cbn [Client.step].
  - repeat split; assumption.
  - repeat split; assumption.
  - unfold Client.handleDrop.
    destruct (0 <? _)%nat; repeat split; try assumption.
    cbn [Client.files Client.setFiles Client.setIsDragging].
    apply Forall_app. split; [exact F|apply filter_Forall].
  - unfold Client.handleFileSelect.
    destruct (0 <? _)%nat; repeat split; try assumption.
    cbn [Client.files Client.setFiles].
    apply Forall_app. split; [exact F|apply filter_Forall].
  - repeat split; try assumption.
    cbn [Client.files Client.removeFile Client.setFiles].
    apply filterIndex_Forall. exact F.
  - repeat split; try assumption. constructor.
  - repeat split; assumption.
  - repeat split; try assumption. apply orZero_not_nan.
  - repeat split; try assumption. apply orZero_not_nan.
Qed.

(** X14. Whatever the user drops, selects, removes, clears or types,
    in any order, the queue only ever holds files whose type starts
    with [video/], and the two cuts the client will post are never
    NaN. *)
Theorem queue_holds_videos_only (actions : list Client.Action) :
  Forall (fun f => Client.isVideo f = true)
    (Client.files (Client.run actions))
  /\ PrimFloat.is_nan (Client.trimStart (Client.run actions)) = false
  /\ PrimFloat.is_nan (Client.trimEnd (Client.run actions)) = false.
Proof.
  unfold Client.run.
  assert (G : forall st, queueOk st -> queueOk (fold_left Client.step actions st)).
  { induction actions as [|a r IH]; intros st Q; cbn [fold_left];
      [exact Q|apply IH, step_queueOk, Q]. }
  apply (G Client.initial).
  split; [constructor|split; vm_compute; reflexivity].
Qed.

(** ** The base name on both sides *)

Lemma dropWhile_fixed (p : N -> bool) (s : jsstring) :
  (forall c r, s = c :: r -> p c = false) -> dropWhile p s = s.
Proof.
  destruct s as [|c r]; intros H; [reflexivity|].
  cbn [dropWhile]. rewrite (H c r eq_refl). reflexivity.
Qed.

Lemma trimEnd_prefix (u : jsstring) :
  exists post, u = trimEnd u ++ post.
Proof.
  unfold trimEnd.
  destruct (dropWhile_suffix isWhiteSpace (rev u)) as [pre [E _]].
  exists (rev pre). rewrite <- rev_app_distr, <- E, rev_involutive.
  reflexivity.
Qed.

(** Trimming a trimmed string changes nothing. *)
Lemma trim_trim (s : jsstring) : trim (trim s) = trim s.
Proof.
  unfold trim.
  assert (A : trimStart (trimEnd (trimStart s)) = trimEnd (trimStart s)).
  { unfold trimStart at 1. apply dropWhile_fixed. intros c r E.
    destruct (trimEnd_prefix (trimStart s)) as [post P].
    rewrite E in P. cbn [app] in P.
    apply (@dropWhile_head isWhiteSpace s c (r ++ post)). exact P. }
  rewrite A. unfold trimEnd.
  rewrite rev_involutive.
  f_equal. apply dropWhile_fixed. intros c r E.
  apply (@dropWhile_head isWhiteSpace (rev (trimStart s)) c r). exact E.
Qed.

(** X16. The download name the client gives the archive,
    [{outputBaseName || 'trimmed'}_all.zip], starts with the base name
    the server gives the videos exactly when the typed name has no
    white space at its ends (the empty name included): the client
    trims the name it posts, not the one it names the archive with. *)
Theorem zip_name_follows_base_name (st : Client.State) :
  Client.zipFilename st
  = Process.baseName (Client.postedBaseName st) ++ lit "_all.zip"
  <-> trim (Client.outputBaseName st) = Client.outputBaseName st.
Proof.
  unfold Client.zipFilename, Client.postedBaseName, Process.baseName.
  set (name := Client.outputBaseName st).
  split.
  - intros H. apply app_inv_tail in H.
    destruct name as [|c r] eqn:N; [reflexivity|]. rewrite <- N in *.
    assert (O : orElse name (lit "trimmed") = name) by (rewrite N; reflexivity).
    rewrite O in H. clear O.
    destruct (trim name) as [|d t] eqn:T.
    + cbn in H. rewrite H in T. vm_compute in T. discriminate.
    + cbn [truthy] in H. rewrite <- T in H. rewrite trim_trim in H.
      unfold orElse in H. rewrite T in H. cbn [truthy] in H. congruence.
  - intros H. rewrite H. f_equal.
    destruct name as [|c r] eqn:N; [reflexivity|]. rewrite <- N in *.
    replace (truthy name) with true by (rewrite N; reflexivity).
    rewrite H. reflexivity.
Qed.

(** ** The directories of a session *)

Lemma components_child (q name : jsstring) :
  isAbsolute q = true -> ~ In 47%N name -> isClean name = true ->
  components (q ++ 47%N :: name) = components q ++ [name].
Proof.
  intros A NS C. unfold components.
  assert (A' : isAbsolute (q ++ 47%N :: name) = true)
    by (destruct q; [discriminate|exact A]).
  rewrite A, A'. cbn [negb].
  rewrite split_app, (@split_no_sep 47%N name NS), resolve_app.
  rewrite resolve_keeps_clean by (constructor; [left; exact C|constructor]).
  rewrite rev_involutive. cbn [filter]. rewrite C. reflexivity.
Qed.

Lemma isPrefix_app_both (a b c : list jsstring) :
  isPrefix (a ++ b) (a ++ c) = isPrefix b c.
Proof.
  induction a as [|x a IH]; [reflexivity|].
  cbn [app isPrefix]. rewrite IH.
  replace (eqb_str x x) with true; [reflexivity|].
  symmetry. apply eqb_str_eq. reflexivity.
Qed.

(** A directory made by two joins below an absolute root. *)
Lemma nested_directory (root name sid : jsstring) :
  isAbsolute root = true ->
  ~ In 47%N name -> isClean name = true ->
  ~ In 47%N sid -> isClean sid = true ->
  isAbsolute (join [root; name]) = true
  /\ components (join [root; name]) = components root ++ [name]
  /\ isAbsolute (join [join [root; name]; sid]) = true
  /\ components (join [join [root; name]; sid])
     = components root ++ [name; sid].
Proof.
  intros A NS C NS' C'.
  assert (R : root <> []) by (intros E; rewrite E in A; discriminate).
  assert (N : name <> []) by (apply isClean_spec in C; tauto).
  assert (Aq : isAbsolute (root ++ 47%N :: name) = true)
    by (destruct root; [congruence|exact A]).
  rewrite (@join_two root name R N).
  destruct (@join_adds_component (root ++ 47%N :: name) sid Aq NS' C')
    as [EC [A1 A2]].
  rewrite components_normalize in * by exact Aq.
  rewrite (@components_child root name A NS C) in *.
  repeat split; try assumption.
  rewrite EC, <- app_assoc. reflexivity.
Qed.

Lemma word_component (w : jsstring) :
  In w [lit "uploads"; lit "output"; lit "zips"] ->
  ~ In 47%N w /\ isClean w = true.
Proof.
  intros [<-|[<-|[<-|[]]]]; (split; [|reflexivity]);
    vm_compute; intros I;
    repeat (destruct I as [I|I]; [discriminate I|]); exact I.
Qed.

Lemma isPrefix_last_differs (a : list jsstring) (x y : jsstring) :
  x <> y -> isPrefix (a ++ [x]) (a ++ [y]) = false.
Proof.
  intros NE. rewrite isPrefix_app_both. cbn [isPrefix].
  destruct (eqb_str x y) eqn:E; [|reflexivity].
  apply eqb_str_eq in E. contradiction.
Qed.

(** X17. Cleanup of a session whose id is a proper single path
    component (no separator, not empty, not [.] or [..]) removes the
    directory of that session, a direct child of the output directory,
    and nothing else: the directory of any other such session, the
    upload directory and the archive directory are neither the removed
    path nor below it. *)
Theorem cleanup_stays_in_its_session (World : Type)
    (remove : World -> jsstring -> World * option jsstring)
    (root : jsstring) (w : World) (sid other : jsstring) :
  isAbsolute root = true ->
  ~ In 47%N sid -> isClean sid = true ->
  ~ In 47%N other -> isClean other = true -> sid <> other ->
  forall removed,
  removed = snd (Archive.cleanup remove (Storage.OUTPUT_DIR root) w sid) ->
  components removed = components root ++ [lit "output"; sid]
  /\ inside (Storage.OUTPUT_DIR root) removed = true
  /\ isPrefix (components removed)
       (components (join [Storage.OUTPUT_DIR root; other])) = false
  /\ isPrefix (components removed)
       (components (Storage.UPLOAD_DIR root)) = false
  /\ isPrefix (components removed)
       (components (Storage.ZIP_DIR root)) = false.
Proof.
  intros A NS C NS' C' NE removed ->.
  assert (P : snd (Archive.cleanup remove (Storage.OUTPUT_DIR root) w sid)
              = join [Storage.OUTPUT_DIR root; sid]).
  { unfold Archive.cleanup. destruct (remove w _) as [w' [e|]]; reflexivity. }
  rewrite P. unfold Storage.OUTPUT_DIR, Storage.UPLOAD_DIR, Storage.ZIP_DIR.
  destruct (@word_component (lit "output")) as [NSo Co];
    [right; left; reflexivity|].
  destruct (@word_component (lit "uploads")) as [NSu Cu];
    [left; reflexivity|].
  destruct (@word_component (lit "zips")) as [NSz Cz];
    [right; right; left; reflexivity|].
  destruct (@nested_directory root (lit "output") sid A NSo Co NS C)
    as [A1 [E1 [A2 E2]]].
  destruct (@nested_directory root (lit "output") other A NSo Co NS' C')
    as [_ [_ [_ E3]]].
  destruct (@nested_directory root (lit "uploads") sid A NSu Cu NS C)
    as [_ [E4 _]].
  destruct (@nested_directory root (lit "zips") sid A NSz Cz NS C)
    as [_ [E5 _]].
  rewrite E2, E3, E4, E5.
  split; [reflexivity|]. split.
  { unfold inside. rewrite A1, A2, E1, E2.
    change [lit "output"; sid] with ([lit "output"] ++ [sid]).
    rewrite app_assoc, isPrefix_app, !length_app. cbn [andb List.length].
    apply Nat.ltb_lt. lia. }
  split.
  { change [lit "output"; sid] with ([lit "output"] ++ [sid]).
    change [lit "output"; other] with ([lit "output"] ++ [other]).
    rewrite !app_assoc. apply isPrefix_last_differs. exact NE. }
  split; rewrite isPrefix_app_both; reflexivity.
Qed.

Lemma cleanup_stays_in_its_session_witness :
  components (snd (Archive.cleanup removeOk (Storage.OUTPUT_DIR (lit "/tmp"))
                     tt (lit "s1")))
  = [lit "tmp"; lit "output"; lit "s1"].
Proof.
  refine (proj1 (@cleanup_stays_in_its_session unit removeOk (lit "/tmp") tt
                   (lit "s1") (lit "s2") eq_refl _ eq_refl _ eq_refl _
                   _ eq_refl)).
  - vm_compute. intros I.
    repeat (destruct I as [I|I]; [discriminate I|]). exact I.
  - vm_compute. intros I.
    repeat (destruct I as [I|I]; [discriminate I|]). exact I.
  - discriminate.
Defined.

(** X18. Cleanup does not look at the session id it is given: with the
    id [..] the directory it removes is the root that holds the upload,
    output and archive directories (['/tmp'] in api/index.js), so all
    three lie below the removed path. *)
Theorem cleanup_of_parent_removes_root (World : Type)
    (remove : World -> jsstring -> World * option jsstring)
    (root : jsstring) (w : World) :
  isAbsolute root = true ->
  forall removed,
  removed = snd (Archive.cleanup remove (Storage.OUTPUT_DIR root) w dotdot) ->
  components removed = components root
  /\ inside removed (Storage.UPLOAD_DIR root) = true
  /\ inside removed (Storage.OUTPUT_DIR root) = true
  /\ inside removed (Storage.ZIP_DIR root) = true.
Proof.
  intros A removed ->.
  assert (P : snd (Archive.cleanup remove (Storage.OUTPUT_DIR root) w dotdot)
              = join [Storage.OUTPUT_DIR root; dotdot]).
  { unfold Archive.cleanup. destruct (remove w _) as [w' [e|]]; reflexivity. }
  rewrite P. clear P.
  assert (R : root <> []) by (intros E; rewrite E in A; discriminate).
  assert (J : join [Storage.OUTPUT_DIR root; dotdot]
              = normalize (root ++ 47%N :: lit "output/..")).
  { unfold Storage.OUTPUT_DIR.
    rewrite (@join_join root (lit "output") dotdot A) by discriminate.
    unfold join. destruct root as [|c r]; [congruence|]. reflexivity. }
  rewrite J. clear J.
  assert (Aq : isAbsolute (root ++ 47%N :: lit "output/..") = true)
    by (destruct root; [congruence|exact A]).
  assert (EC : components (normalize (root ++ 47%N :: lit "output/.."))
               = components root).
  { rewrite components_normalize by exact Aq. unfold components.
    rewrite A, Aq. cbn [negb]. rewrite split_app, resolve_app.
    generalize (resolve false (split 47 root) []). intros l.
    change (split 47 (lit "output/..")) with [lit "output"; dotdot].
    rewrite <- (rev_involutive l) at 2.
    generalize (rev l). intros res. reflexivity. }
  pose proof (@normalize_absolute _ Aq) as An.
  rewrite EC. split; [reflexivity|].
  destruct (@word_component (lit "output")) as [NSo Co];
    [right; left; reflexivity|].
  destruct (@word_component (lit "uploads")) as [NSu Cu];
    [left; reflexivity|].
  destruct (@word_component (lit "zips")) as [NSz Cz];
    [right; right; left; reflexivity|].
  destruct (@nested_directory root (lit "output") (lit "output") A NSo Co NSo Co) as [A1 [E1 _]].
  destruct (@nested_directory root (lit "uploads") (lit "output") A NSu Cu NSo Co) as [A2 [E2 _]].
  destruct (@nested_directory root (lit "zips") (lit "output") A NSz Cz NSo Co) as [A3 [E3 _]].
  unfold inside, Storage.OUTPUT_DIR, Storage.UPLOAD_DIR, Storage.ZIP_DIR.
  rewrite An, EC, A1, A2, A3, E1, E2, E3, !isPrefix_app, !length_app.
  cbn [andb List.length].
  repeat split; apply Nat.ltb_lt; lia.
Qed.

Lemma cleanup_of_parent_removes_root_witness :
  snd (Archive.cleanup removeOk (Storage.OUTPUT_DIR (lit "/tmp")) tt dotdot)
  = lit "/tmp"
  /\ inside (lit "/tmp") (Storage.UPLOAD_DIR (lit "/tmp")) = true.
Proof.
  destruct (@cleanup_of_parent_removes_root unit removeOk (lit "/tmp") tt
              eq_refl _ eq_refl) as [_ [U _]].
  split; [vm_compute; reflexivity|].
  change (lit "/tmp")
    with (snd (Archive.cleanup removeOk (Storage.OUTPUT_DIR (lit "/tmp")) tt
                 dotdot)) at 1.
  exact U.
Defined.

(** ** The archive of a session *)

Lemma zipFileName_component (sid : jsstring) :
  ~ In 47%N sid ->
  ~ In 47%N (Archive.zipFileName sid)
  /\ isClean (Archive.zipFileName sid) = true.
Proof.
  intros NS. unfold Archive.zipFileName. split.
  - intros I. apply in_app_or in I. destruct I as [I|I].
    + vm_compute in I.
      repeat (destruct I as [I|I]; [discriminate I|]). exact I.
    + apply in_app_or in I. destruct I as [I|I]; [exact (NS I)|].
      vm_compute in I.
      repeat (destruct I as [I|I]; [discriminate I|]). exact I.
  - apply isClean_spec. repeat split; discriminate.
Qed.

Lemma zipFileName_inj (a b : jsstring) :
  Archive.zipFileName a = Archive.zipFileName b -> a = b.
Proof.
  unfold Archive.zipFileName. intros H.
  apply app_inv_head in H. apply app_inv_tail in H. exact H.
Qed.

Lemma checkInvalidHeaderChar_zipFileName (sid : jsstring) :
  checkInvalidHeaderChar (Archive.zipFileName sid)
  = checkInvalidHeaderChar sid.
Proof.
  unfold Archive.zipFileName, checkInvalidHeaderChar. rewrite !existsb_app.
  change (existsb (fun c => negb (headerChar c)) (lit "trimmed_videos_"))
    with false.
  change (existsb (fun c => negb (headerChar c)) (lit ".zip")) with false.
  cbn [orb]. apply orb_false_r.
Qed.

(** X19. Create-archive and retrieve-archive fit together: when the
    create handler answers with a link for a session id without a path
    separator, the archive was written to a direct child of the archive
    directory, the link is the prefix followed by the file name, and no
    other session id leads to the same file name.  The retrieve
    handler called with that file name streams back exactly what is
    stored at the path written when the session id holds only
    characters a header value may hold; for any other session id it
    answers 500 although the archive is there. *)
Theorem archive_round_trip (World : Type)
    (pathExists : World -> jsstring -> bool)
    (archiveDirectory : World -> jsstring -> jsstring
                        -> World * option jsstring)
    (root prefix : jsstring) (w w' : World)
    (sid url fileName zipPath : jsstring)
    (fs : FileSystem) (content : bytes) :
  isAbsolute root = true -> ~ In 47%N sid ->
  Archive.createZip pathExists archiveDirectory
    (Storage.OUTPUT_DIR root) (Storage.ZIP_DIR root) prefix w (Some sid)
  = (w', Archive.ZipJson url fileName, Some zipPath) ->
  fs zipPath = Some content ->
  url = prefix ++ fileName
  /\ inside (Storage.ZIP_DIR root) zipPath = true
  /\ components zipPath = components root ++ [lit "zips"; fileName]
  /\ (checkInvalidHeaderChar sid = false ->
      status (Archive.getZip (Storage.ZIP_DIR root) fs fileName) = 200%Z
      /\ body (Archive.getZip (Storage.ZIP_DIR root) fs fileName)
         = FileStream content)
  /\ (checkInvalidHeaderChar sid = true ->
      Archive.getZip (Storage.ZIP_DIR root) fs fileName
      = {| status := 500; headers := [];
           body := JsonError (ERR_INVALID_CHAR (lit "Content-Disposition")) |})
  /\ forall sid', Archive.zipFileName sid' = fileName -> sid' = sid.
Proof.
  intros A NS H F. unfold Archive.createZip in H.
  destruct (Process.missing (Some sid)); [discriminate|].
  destruct (negb (pathExists w _)); [discriminate|].
  destruct (archiveDirectory w _ _) as [w1 [err|]]; [discriminate|].
  inversion H; subst. clear H.
  destruct (@zipFileName_component sid NS) as [NSz Cz].
  destruct (@word_component (lit "zips")) as [NSw Cw];
    [right; right; left; reflexivity|].
  destruct (@nested_directory root (lit "zips") (Archive.zipFileName sid)
              A NSw Cw NSz Cz) as [A1 [E1 [A2 E2]]].
  split; [reflexivity|]. split.
  { unfold inside, Storage.ZIP_DIR. rewrite A1, A2, E1, E2.
    change [lit "zips"; Archive.zipFileName sid]
      with ([lit "zips"] ++ [Archive.zipFileName sid]).
    rewrite app_assoc, isPrefix_app, !length_app. cbn [andb List.length].
    apply Nat.ltb_lt. lia. }
  split; [exact E2|].
  unfold Archive.getZip. rewrite F. cbv zeta.
  rewrite checkInvalidHeaderChar_disposition,
    checkInvalidHeaderChar_zipFileName.
  split; [intros C; rewrite C; split; reflexivity|].
  split; [intros C; rewrite C; reflexivity|].
  intros sid' E. apply zipFileName_inj. exact E.
Qed.

Lemma archive_round_trip_witness :
  body (Archive.getZip (Storage.ZIP_DIR (lit "/tmp"))
          (oneFile (lit "/tmp/zips/trimmed_videos_s1.zip") 4)
          (lit "trimmed_videos_s1.zip"))
  = FileStream (repeat Byte.x00 4).
Proof.
  refine (proj2 (proj1 (proj2 (proj2 (proj2
    (@archive_round_trip unit allExist archiveOk (lit "/tmp")
       (lit "/api/zips/") tt tt (lit "s1")
       (lit "/api/zips/trimmed_videos_s1.zip")
       (lit "trimmed_videos_s1.zip")
       (lit "/tmp/zips/trimmed_videos_s1.zip")
       (oneFile (lit "/tmp/zips/trimmed_videos_s1.zip") 4)
       (repeat Byte.x00 4) eq_refl _ _ _)))) eq_refl)).
  - vm_compute. intros I.
    repeat (destruct I as [I|I]; [discriminate I|]). exact I.
  - vm_compute. reflexivity.
  - vm_compute. reflexivity.
Defined.

(** ** The cuts from the client to the planning step *)

Lemma orZero_idem (x : float) :
  Process.orZero (Process.orZero x) = Process.orZero x.
Proof.
  unfold Process.orZero.
  destruct (Process.nfalsy x) eqn:H; [reflexivity|].
  rewrite H. reflexivity.
Qed.

Lemma step_cutsOk (st : Client.State) (a : Client.Action) :
  cutsOk st -> cutsOk (Client.step st a).
Proof.
  intros [S E]. destruct a; cbn [Client.step];
    try (split; assumption).
  - unfold Client.handleDrop. destruct (0 <? _)%nat; split; assumption.
  - unfold Client.handleFileSelect. destruct (0 <? _)%nat; split; assumption.
  - split; [apply orZero_idem|exact E].
  - split; [exact S|apply orZero_idem].
Qed.

Lemma jsonNumber_orZero (x : float) :
  Process.orZero x = x ->
  Process.orZero (Client.jsonNumber x)
  = if PrimFloat.is_infinity x then PrimFloat.zero else x.
Proof.
  intros H. pose proof (orZero_not_nan x) as N. rewrite H in N.
  unfold Client.jsonNumber. rewrite N. cbn [orb].
  destruct (PrimFloat.is_infinity x); [reflexivity|exact H].
Qed.

(** X20. The cuts travel unchanged from the client to the planning
    step: after any sequence of user actions, the values the Process
    handler computes from the posted body with [parseFloat(...) || 0]
    are the very cuts the client holds, except that an infinite cut,
    which JSON cannot carry, arrives as 0. *)
Theorem posted_cuts_reach_the_planning_step (actions : list Client.Action)
    (sid : jsstring) (uploaded : list Process.FileRef) :
  Process.orZero
    (Process.trimStart (Client.postedRequest (Client.run actions) sid uploaded))
  = (if PrimFloat.is_infinity (Client.trimStart (Client.run actions))
     then PrimFloat.zero else Client.trimStart (Client.run actions))
  /\ Process.orZero
       (Process.trimEnd (Client.postedRequest (Client.run actions) sid uploaded))
     = (if PrimFloat.is_infinity (Client.trimEnd (Client.run actions))
        then PrimFloat.zero else Client.trimEnd (Client.run actions)).
Proof.
  assert (G : forall st, cutsOk st -> cutsOk (fold_left Client.step actions st)).
  { induction actions as [|a r IH]; intros st Q; cbn [fold_left];
      [exact Q|apply IH, step_cutsOk, Q]. }
  destruct (G Client.initial) as [S E];
    [split; vm_compute; reflexivity|].
  fold (Client.run actions) in S, E.
  cbn [Client.postedRequest Process.trimStart Process.trimEnd].
  split; apply jsonNumber_orZero; assumption.
Qed.

(** ** What a partial answer announces *)


